(** * Aether: the Brain client and the connectivity monitor

    A shallow embedding of [BrainClient] (health check with port discovery,
    request dispatch with a single tracked slot, response classification,
    the pull stream reader) and of the resilient health check of the
    extension entry point, with the properties the design document states
    about them. *)

From Stdlib Require Import NArith ZArith List Bool Ascii String Lia.
From Stdlib Require Import Floats.PrimFloat.
From stdpp Require Import base option list gmap.
Import ListNotations.

Set Default Proof Using "Type".
Set Warnings "-register-all".

(** ** JavaScript data *)

(** A JavaScript string is a sequence of UTF-16 code units. *)
Definition jsstring := list N.

(** The code units of an ASCII literal. *)
Fixpoint js (s : String.string) : jsstring :=
  match s with
  | String.EmptyString => []
  | String.String c r => N_of_ascii c :: js r
  end.
Arguments js s%_string : simpl never.

(** A literal between double quotes. *)
Definition quoted (s : String.string) : jsstring := [34%N] ++ js s ++ [34%N].
Arguments quoted s%_string : simpl never.

Definition jsstring_eqb (a b : jsstring) : bool := bool_decide (a = b).

(** [s.startsWith(p)] *)
Fixpoint startsWith (p s : jsstring) : bool :=
  match p, s with
  | [], _ => true
  | _ :: _, [] => false
  | a :: p', b :: s' => N.eqb a b && startsWith p' s'
  end.

(** [s.slice(0, n)] and [s.slice(n)] for a literal [n >= 0]. *)
Definition slice_to (n : nat) (s : jsstring) : jsstring := firstn n s.
Definition slice_from (n : nat) (s : jsstring) : jsstring := skipn n s.
Arguments slice_to : simpl never.
Arguments slice_from : simpl never.

(** White space and line terminators, the code units [String.prototype.trim]
    strips. *)
Definition is_space (c : N) : bool :=
  existsb (N.eqb c)
    [9; 10; 11; 12; 13; 32; 160; 5760; 8192; 8193; 8194; 8195; 8196; 8197;
     8198; 8199; 8200; 8201; 8202; 8232; 8233; 8239; 8287; 12288; 65279]%N.

Fixpoint trimStart (s : jsstring) : jsstring :=
  match s with
  | c :: r => if is_space c then trimStart r else s
  | [] => []
  end.

Definition trim (s : jsstring) : jsstring := rev (trimStart (rev (trimStart s))).

(** [s.split(sep)] for a non-empty separator: [skip] counts the code units of
    a separator occurrence that are still to be passed over. The result is
    never empty; its last element is the text after the last separator. *)
Definition cons_head (c : N) (ps : list jsstring) : list jsstring :=
  match ps with
  | p :: r => (c :: p) :: r
  | [] => [[c]]
  end.

Fixpoint split_from (sep : jsstring) (skip : nat) (s : jsstring) : list jsstring :=
  match s with
  | [] => [[]]
  | c :: r =>
      match skip with
      | S k => split_from sep k r
      | O => if startsWith sep s
             then [] :: split_from sep (length sep - 1) r
             else cons_head c (split_from sep 0 r)
      end
  end.

Definition split (sep s : jsstring) : list jsstring :=
  match sep with
  | [] => map (fun c => [c]) s
  | _ :: _ => split_from sep 0 s
  end.

(** Decimal digits of a non-negative integer, as a template literal
    renders it. *)
Fixpoint decimal_fuel (fuel : nat) (n : N) (acc : jsstring) : jsstring :=
  match fuel with
  | O => acc
  | S f =>
      let acc' := (48 + n mod 10)%N :: acc in
      if (n <? 10)%N then acc' else decimal_fuel f (n / 10)%N acc'
  end.

Definition decimal (n : N) : jsstring := decimal_fuel (S (N.to_nat (N.log2 n))) n [].

(** JavaScript values, as far as [JSON.parse] and property access produce
    them. A number is an IEEE 754 binary64. *)
Inductive value :=
  | VUndefined
  | VNull
  | VBool (b : bool)
  | VNum (x : float)
  | VStr (s : jsstring)
  | VArr (items : list value)
  | VObj (props : list (jsstring * value)).

(** ToBoolean. *)
Definition truthy (v : value) : bool :=
  match v with
  | VUndefined | VNull => false
  | VBool b => b
  | VNum x => negb (PrimFloat.eqb x 0%float || PrimFloat.is_nan x)
  | VStr s => negb (bool_decide (s = []))
  | VArr _ | VObj _ => true
  end.

(** [a || b] *)
Definition js_or (a b : value) : value := if truthy a then a else b.

Fixpoint own_property (k : jsstring) (props : list (jsstring * value)) : value :=
  match props with
  | [] => VUndefined
  | (k', v) :: r => if jsstring_eqb k k' then v else own_property k r
  end.

(** Whether an object has an own property [k], whatever its value. *)
Definition has_own_property (k : jsstring) (props : list (jsstring * value)) : bool :=
  existsb (fun kv => jsstring_eqb k (fst kv)) props.

(** [v.k] for a key [k] that no built-in prototype defines (the client reads
    [status], [pct] and [detail] only): [None] is the TypeError of a property
    read on [null] or [undefined]. *)
Definition get (v : value) (k : jsstring) : option value :=
  match v with
  | VUndefined | VNull => None
  | VObj props => Some (own_property k props)
  | _ => Some VUndefined
  end.

(** [v === s] for a string [s]. *)
Definition is_string (s : jsstring) (v : value) : bool :=
  match v with
  | VStr t => jsstring_eqb t s
  | _ => false
  end.

(** [typeof v === "number"] *)
Definition is_number (v : value) : bool :=
  match v with
  | VNum _ => true
  | _ => false
  end.

(** [parts.join(sep)] over rendered parts. *)
Fixpoint join (sep : jsstring) (parts : list jsstring) : jsstring :=
  match parts with
  | [] => []
  | [p] => p
  | p :: r => p ++ sep ++ join sep r
  end.

(** ** The host *)

(** What [new URL(s)] exposes. [port] is [None] when the [port] property is
    the empty string (no port given, or the scheme's default one), and the
    number its digits spell otherwise. *)
Record URL := {
  protocol : jsstring;
  hostname : jsstring;
  port : option N;
  pathname : jsstring
}.

(** The built-ins the client calls and whose code is the host's. *)
Class Runtime := {
  (** [JSON.parse]; [None] is its SyntaxError. *)
  JSON_parse : jsstring -> option value;
  (** [new URL]; [None] is its TypeError. *)
  URL_new : jsstring -> option URL;
  (** [Number.prototype.toString] *)
  Number_toString : float -> jsstring
}.

(** ** The Brain client *)

Module BrainClient.

Inductive method := GET | POST.

(** What a promise of the client is rejected with. *)
Inductive failure :=
  | Error (message : jsstring)
  | TypeError
  | SocketError (err : jsstring).

Inductive settled (T : Type) :=
  | Resolved (v : T)
  | Rejected (e : failure).
Arguments Resolved {T} v.
Arguments Rejected {T} e.

(** The options [http.request] is called with. The headers and the body
    written to the request are left out: no handler of the reply reads
    them. *)
Record request := {
  req_hostname : jsstring;
  req_port : N;
  req_path : jsstring;
  req_method : method;
  req_timeout : N
}.

(** The handler that runs first for an exchange: the response's [end]
    (with the status code and all the chunks received, appended), the
    request's [error] or the request's [timeout]. An exchange for which
    none of them ever runs (a reply cut after its header, a body that never
    ends) has no such event. *)
Inductive exchange :=
  | Ended (statusCode : option N) (data : jsstring)
  | Errored (err : jsstring)
  | TimedOut.

(** An [http.ClientRequest] object, by identity. *)
Definition handle := nat.

Record client := {
  _baseUrl : jsstring;
  _vibeRequest : option handle
}.

Definition TIMEOUT_MS : N := 300000.
Definition HEALTH_TIMEOUT_MS : N := 2000.

(** [s.replace(/\/+$/, "")] *)
Fixpoint strip_slashes_start (s : jsstring) : jsstring :=
  match s with
  | c :: r => if (c =? 47)%N then strip_slashes_start r else s
  | [] => []
  end.

Definition constructor (baseUrl : jsstring) : client :=
  {| _baseUrl := rev (strip_slashes_start (rev baseUrl)); _vibeRequest := None |}.

Section WithRuntime.
Context {R : Runtime}.

(** The string a template literal puts for a value (ToString). [None] is
    the TypeError of a value that has no primitive form: an object with an
    own [toString] property (a decoded value is never callable, so the
    property hides [Object.prototype.toString], and [valueOf] gives no
    primitive either), or an array with such an element. *)
Fixpoint to_string (v : value) : option jsstring :=
  match v with
  | VUndefined => Some (js "undefined")
  | VNull => Some (js "null")
  | VBool b => Some (if b then js "true" else js "false")
  | VNum x => Some (Number_toString x)
  | VStr s => Some s
  | VArr items =>
      option_map (join (js ","))
        ((fix parts (l : list value) : option (list jsstring) :=
            match l with
            | [] => Some []
            | x :: r =>
                match match x with
                      | VUndefined | VNull => Some []
                      | _ => to_string x
                      end, parts r with
                | Some a, Some b => Some (a :: b)
                | _, _ => None
                end
            end) items)
  | VObj props =>
      if has_own_property (js "toString") props then None
      else Some (js "[object Object]")
  end.

(** [Math.round(timeoutMs / 1000)] *)
Definition round_seconds (timeoutMs : N) : N := ((timeoutMs + 500) / 1000)%N.

(** The [end] handler of [_makeRequest], after the slot bookkeeping: what
    it settles the promise with. [None] when the template literal of the
    error message throws: the handler is left before [reject] is called and
    the promise stays pending. *)
Definition on_end (statusCode : option N) (data : jsstring) : option (settled value) :=
  let status := default 0%N statusCode in
  if (400 <=? status)%N then
    let detail := VStr (slice_to 300 data) in
    let detail :=
      match JSON_parse data with
      | Some p =>
          match get p (js "detail") with
          | Some d => if truthy d then d else detail
          | None => detail
          end
      | None => detail
      end in
    match to_string detail with
    | Some text =>
        Some (Rejected (Error (js "Brain HTTP " ++ decimal status ++ js ": " ++ text)))
    | None => None
    end
  else
    match JSON_parse data with
    | Some v => Some (Resolved v)
    | None => Some (Rejected (Error (js "Invalid JSON: " ++ slice_to 200 data)))
    end.

Definition on_error (err : jsstring) : settled value := Rejected (SocketError err).

Definition on_timeout (timeoutMs : N) : settled value :=
  Rejected (Error (js "Timeout (" ++ decimal (round_seconds timeoutMs) ++ js "s)")).

(** What the handler that runs settles the promise with, if it does. *)
Definition settle (timeoutMs : N) (x : exchange) : option (settled value) :=
  match x with
  | Ended statusCode data => on_end statusCode data
  | Errored err => Some (on_error err)
  | TimedOut => Some (on_timeout timeoutMs)
  end.

(** [baseOverride || this._baseUrl] *)
Definition base_of (c : client) (baseOverride : option jsstring) : jsstring :=
  match baseOverride with
  | Some b => if bool_decide (b = []) then _baseUrl c else b
  | None => _baseUrl c
  end.

(** The first lines of [_makeRequest]: [None] when [new URL] throws. *)
Definition options (c : client) (m : method) (path : jsstring) (timeoutMs : N)
    (baseOverride : option jsstring) : option request :=
  match URL_new (base_of c baseOverride ++ path) with
  | None => None
  | Some url =>
      Some {| req_hostname := hostname url;
              req_port := default 8420%N (port url);
              req_path := pathname url;
              req_method := m;
              req_timeout := timeoutMs |}
  end.

(** The promise of [this._fire(...)], where [net] tells which handler runs
    for the exchange issued with given options, if one ever does. An
    exception in the promise's executor rejects the promise. [None] is a
    promise that stays pending: no handler runs, or the one that runs
    throws. *)
Definition _fire (net : request -> option exchange) (c : client) (m : method)
    (path : jsstring) (timeoutMs : N) (baseOverride : option jsstring)
    : option (settled value) :=
  match options c m path timeoutMs baseOverride with
  | None => Some (Rejected TypeError)
  | Some r =>
      match net r with
      | Some x => settle timeoutMs x
      | None => None
      end
  end.

(** *** Health check with port discovery *)

(** A call of [_fire] made by [healthCheck]: against the configured
    endpoint, or in the loop for port [p] against [tryUrl]. *)
Inductive attempt :=
  | Configured (base : jsstring)
  | Scanned (p : N) (tryUrl : jsstring).

(** What a health check comes to: what its promise is settled with
    ([None] when an awaited probe stays pending, and the health check with
    it), the client afterwards, and the probes made. *)
Record health := {
  outcome : option (settled bool);
  after : client;
  attempts : list attempt
}.

Definition tryUrl_of (base : URL) (p : N) : jsstring :=
  protocol base ++ js "//" ++ hostname base ++ js ":" ++ decimal p.

(** The values [p] takes in [for (p = basePort; p < basePort + 10; p++)]. *)
Definition loop_ports (basePort : N) : list N :=
  map (fun i => (basePort + N.of_nat i)%N) (seq 0 10).

(** The loop of the [catch] block. [net n] answers the exchange of the
    [n]-th call of [_fire] of this health check, counted from 0. *)
Fixpoint discover (net : nat -> request -> option exchange) (c : client) (base : URL)
    (basePort : N) (ps : list N) (tried : list attempt) : health :=
  match ps with
  | [] => {| outcome := Some (Resolved false); after := c; attempts := tried |}
  | p :: rest =>
      if (p =? basePort)%N then discover net c base basePort rest tried
      else
        let tryUrl := tryUrl_of base p in
        let tried' := tried ++ [Scanned p tryUrl] in
        match _fire (net (length tried)) c GET (js "/health") HEALTH_TIMEOUT_MS
                    (Some tryUrl) with
        | Some (Resolved res) =>
            match get res (js "status") with
            | Some st =>
                if is_string (js "ok") st
                then {| outcome := Some (Resolved true);
                        after := {| _baseUrl := tryUrl;
                                    _vibeRequest := _vibeRequest c |};
                        attempts := tried' |}
                else discover net c base basePort rest tried'
            | None => discover net c base basePort rest tried'
            end
        | Some (Rejected _) => discover net c base basePort rest tried'
        | None => {| outcome := None; after := c; attempts := tried' |}
        end
  end.

(** The [catch] block of [healthCheck]. *)
Definition discovery (net : nat -> request -> option exchange) (c : client)
    (tried : list attempt) : health :=
  match URL_new (_baseUrl c) with
  | None => {| outcome := Some (Rejected TypeError); after := c; attempts := tried |}
  | Some base =>
      let basePort := default 8420%N (port base) in
      discover net c base basePort (loop_ports basePort) tried
  end.

Definition healthCheck (net : nat -> request -> option exchange) (c : client) : health :=
  let tried := [Configured (_baseUrl c)] in
  match _fire (net 0) c GET (js "/health") HEALTH_TIMEOUT_MS None with
  | Some (Resolved res) =>
      match get res (js "status") with
      | Some st =>
          {| outcome := Some (Resolved (is_string (js "ok") st)); after := c;
             attempts := tried |}
      | None => discovery net c tried
      end
  | Some (Rejected _) => discovery net c tried
  | None => {| outcome := None; after := c; attempts := tried |}
  end.

(** The port the loop starts from: [parseInt(base.port || "8420", 10)]. *)
Definition configured_port (base : URL) : N := default 8420%N (port base).

(** The first call of [_fire], and the call made for port
    [configured_port base + k]. *)
Definition configured_probe (net : nat -> request -> option exchange) (c : client)
    : option (settled value) :=
  _fire (net 0) c GET (js "/health") HEALTH_TIMEOUT_MS None.

Definition scanned_probe (net : nat -> request -> option exchange) (c : client)
    (base : URL) (k : nat) : option (settled value) :=
  _fire (net k) c GET (js "/health") HEALTH_TIMEOUT_MS
        (Some (tryUrl_of base (configured_port base + N.of_nat k))).

(** The probe resolved and [res.status === "ok"]. *)
Definition reports_ok (r : option (settled value)) : bool :=
  match r with
  | Some (Resolved res) =>
      match get res (js "status") with
      | Some st => is_string (js "ok") st
      | None => false
      end
  | Some (Rejected _) | None => false
  end.

(** The probe leaves the [try] block by an exception: the promise was
    rejected, or reading [status] of what it resolved to throws. A probe
    that stays pending leaves the block in no way. *)
Definition threw (r : option (settled value)) : bool :=
  match r with
  | Some (Resolved res) =>
      match get res (js "status") with
      | Some _ => false
      | None => true
      end
  | Some (Rejected _) => true
  | None => false
  end.

(** The probe's promise stays pending: the [await] never returns. *)
Definition pending (r : option (settled value)) : bool :=
  match r with
  | None => true
  | Some _ => false
  end.

(** The probe settled without reporting ok: the loop goes on to the next
    port. *)
Definition declines (r : option (settled value)) : bool :=
  negb (pending r) && negb (reports_ok r).


(** The handler that runs for the exchange throws before it settles the
    promise. *)
Definition throws (x : exchange) : bool :=
  match x with
  | Ended statusCode data =>
      match on_end statusCode data with
      | Some _ => false
      | None => true
      end
  | Errored _ | TimedOut => false
  end.

(** The calls of [_fire] for the ports [configured_port base + k], ...,
    [configured_port base + k + n - 1]. *)
Definition scanned_attempts (base : URL) (k n : nat) : list attempt :=
  map (fun j => Scanned (configured_port base + N.of_nat j)
                        (tryUrl_of base (configured_port base + N.of_nat j)))
      (seq k n).

(** Replies to a health probe, and three networks: a Brain that
    listens on port 8423 only; a service on port 8420 that answers
    without reporting ok while a Brain listens on 8421; nothing that
    answers in time. *)
Definition ok_body : jsstring :=
  js "{" ++ quoted "status" ++ js ":" ++ quoted "ok" ++ js "}".
Definition starting_body : jsstring :=
  js "{" ++ quoted "status" ++ js ":" ++ quoted "starting" ++ js "}".

Definition brain_on_8423 : nat -> request -> option exchange :=
  fun _ r => Some (if (req_port r =? 8423)%N then Ended (Some 200%N) ok_body
                   else Errored (js "ECONNREFUSED")).

Definition brain_starting : nat -> request -> option exchange :=
  fun _ r => Some (if (req_port r =? 8420)%N then Ended (Some 200%N) starting_body
                   else if (req_port r =? 8421)%N then Ended (Some 200%N) ok_body
                   else Errored (js "ECONNREFUSED")).





Definition odd_detail_body : jsstring :=
  js "{" ++ quoted "detail" ++ js ":{" ++ quoted "toString" ++ js ":null}}".



Definition local_8420 : URL :=
  {| protocol := js "http:"; hostname := js "127.0.0.1"; port := Some 8420%N;
     pathname := js "/" |}.

(** The message of a remote error and of an invalid-response error. *)
Definition remote_error (status : N) (detail : jsstring) : failure :=
  Error (js "Brain HTTP " ++ decimal status ++ js ": " ++ detail).

Definition invalid_response (data : jsstring) : failure :=
  Error (js "Invalid JSON: " ++ slice_to 200 data).

(** The detail of a remote error in the words of the design document:
    the [detail] field when the body is JSON with a [detail] string, the
    first 300 code units of the body otherwise. *)
Definition documented_detail (data : jsstring) : jsstring :=
  match JSON_parse data with
  | Some p =>
      match get p (js "detail") with
      | Some (VStr s) => s
      | _ => slice_to 300 data
      end
  | None => slice_to 300 data
  end.

Definition not_found_body : jsstring :=
  js "{" ++ quoted "detail" ++ js ":" ++ quoted "not found" ++ js "}".
Definition empty_detail_body : jsstring :=
  js "{" ++ quoted "detail" ++ js ":" ++ quoted "" ++ js "}".

(** *** The pull stream *)

Record PullOutcome := {
  status : jsstring;
  model : option jsstring;
  message : option jsstring
}.

(** A call [onProgress(data.pct, lastStatus)], by its arguments. *)
Definition progress := (value * value)%type.

(** The blank line between the units of the stream. *)
Definition blank_line : jsstring := [10; 10]%N.

(** The body of the loop over the complete blocks of a chunk: the new
    [lastStatus] and the calls of the sink. [sink] tells whether
    [onProgress] was given. An exception inside the [try] leaves what was
    assigned before it. *)
Definition on_block (sink : bool) (lastStatus : value) (block : jsstring)
    : value * list progress :=
  let line := trim block in
  if negb (startsWith (js "data: ") line) then (lastStatus, [])
  else
    match JSON_parse (slice_from 6 line) with
    | None => (lastStatus, [])
    | Some data =>
        match get data (js "status") with
        | None => (lastStatus, [])
        | Some st =>
            let lastStatus := js_or st (VStr []) in
            match get data (js "pct") with
            | None => (lastStatus, [])
            | Some pct =>
                if sink && is_number pct
                then (lastStatus, [(pct, lastStatus)])
                else (lastStatus, [])
            end
        end
    end.

Fixpoint on_blocks (sink : bool) (lastStatus : value) (blocks : list jsstring)
    : value * list progress :=
  match blocks with
  | [] => (lastStatus, [])
  | b :: r =>
      let '(st, calls) := on_block sink lastStatus b in
      let '(st', calls') := on_blocks sink st r in
      (st', calls ++ calls')
  end.

(** The variables of the response callback. *)
Record reader := { lastStatus : value; buffer : jsstring }.

Definition reader_start : reader := {| lastStatus := VStr []; buffer := [] |}.

(** The [data] handler: [lines.pop() || ""] is the last element of the
    split, the blocks before it are processed. *)
Definition on_data (sink : bool) (r : reader) (chunk : jsstring)
    : reader * list progress :=
  let buffer := buffer r ++ chunk in
  let lines := split blank_line buffer in
  let '(st, calls) := on_blocks sink (lastStatus r) (removelast lines) in
  ({| lastStatus := st; buffer := List.last lines [] |}, calls).

Fixpoint on_chunks (sink : bool) (r : reader) (chunks : list jsstring)
    : reader * list progress :=
  match chunks with
  | [] => (r, [])
  | ch :: rest =>
      let '(r1, calls) := on_data sink r ch in
      let '(r2, calls') := on_chunks sink r1 rest in
      (r2, calls ++ calls')
  end.

(** The [end] handler of the pull response. *)
Definition on_pull_end (m : jsstring) (lastStatus : value) : PullOutcome :=
  if is_string (js "done") lastStatus || is_string (js "success") lastStatus
  then {| status := js "ok"; model := Some m; message := None |}
  else if is_string (js "error") lastStatus
  then {| status := js "error"; model := None; message := Some (js "Pull failed") |}
  else {| status := js "ok"; model := Some m; message := None |}.

(** How the pull exchange goes: the chunks delivered, then the event that
    settles the promise. *)
Inductive pull_exchange :=
  | PullEnded (chunks : list jsstring)
  | PullErrored (chunks : list jsstring) (err : jsstring)
  | PullTimedOut (chunks : list jsstring).

Definition pullModel (c : client) (m : jsstring) (sink : bool) (x : pull_exchange)
    : settled PullOutcome * list progress :=
  match URL_new (_baseUrl c ++ js "/models/pull") with
  | None => (Rejected TypeError, [])
  | Some _ =>
      match x with
      | PullEnded chunks =>
          let '(r, calls) := on_chunks sink reader_start chunks in
          (Resolved (on_pull_end m (lastStatus r)), calls)
      | PullErrored chunks err =>
          (Rejected (SocketError err), snd (on_chunks sink reader_start chunks))
      | PullTimedOut chunks =>
          (Rejected (Error (js "Pull timeout")), snd (on_chunks sink reader_start chunks))
      end
  end.

(** The stream read as a whole, in the words of the design document: the
    units are the pieces before the last blank line; a unit counts when,
    trimmed, it begins with the prefix and the rest decodes to a value
    that has properties. *)
Definition units (stream : jsstring) : list jsstring :=
  removelast (split blank_line stream).

Definition decoded (u : jsstring) : option value :=
  let line := trim u in
  if startsWith (js "data: ") line
  then match JSON_parse (slice_from 6 line) with
       | Some VNull | Some VUndefined | None => None
       | Some data => Some data
       end
  else None.

(** The status field of a decoded unit, empty by default. *)
Definition status_of (data : value) : value :=
  js_or (default VUndefined (get data (js "status"))) (VStr []).

Definition last_known_status (stream : jsstring) : value :=
  List.last (map status_of (omap decoded (units stream))) (VStr []).

(** The progress event of a unit: those decoded units that hold a numeric
    [pct]. *)
Definition progress_of (u : jsstring) : option progress :=
  match decoded u with
  | Some data =>
      match get data (js "pct") with
      | Some (VNum x) => Some (VNum x, status_of data)
      | _ => None
      end
  | None => None
  end.

Definition progress_events (stream : jsstring) : list progress :=
  omap progress_of (units stream).

(** The stream of the design document's example: a unit with a
    percentage, then a unit without one. *)
Definition example_payload1 : jsstring :=
  js "{" ++ quoted "pct" ++ js ":10," ++ quoted "status" ++ js ":"
     ++ quoted "running" ++ js "}".
Definition example_payload2 : jsstring :=
  js "{" ++ quoted "status" ++ js ":" ++ quoted "done" ++ js "}".
Definition example_stream : jsstring :=
  js "data: " ++ example_payload1 ++ blank_line
     ++ js "data: " ++ example_payload2 ++ blank_line.
Definition example_data1 : value :=
  VObj [(js "pct", VNum 10%float); (js "status", VStr (js "running"))].
Definition example_data2 : value :=
  VObj [(js "status", VStr (js "done"))].

(** A stream whose last decoded unit reports an error, followed by a
    unit that is never completed. *)
Definition failing_chunks : list jsstring :=
  [js "data: {" ++ quoted "status" ++ js ":" ++ quoted "error" ++ js "}" ++ blank_line;
   js "data: {" ++ quoted "status" ++ js ":" ++ quoted "done" ++ js "}"].

(** *** Tracked and untracked exchanges *)

(** A request object: what it was issued with, whether [destroy] was
    called on it, and what its promise was settled with, if it was. *)
Record inflight := {
  issued : request;
  destroyed : bool;
  promise : option (settled value)
}.

Record world := {
  self : client;
  heap : gmap handle inflight;
  next : handle
}.

Definition new_world (baseUrl : jsstring) : world :=
  {| self := constructor baseUrl; heap := ∅; next := 0 |}.

(** [_makeRequest] up to [return req]: [None] when [new URL] throws, a
    fresh request object otherwise. *)
Definition _makeRequest (w : world) (m : method) (path : jsstring) (timeoutMs : N)
    (baseOverride : option jsstring) : option (handle * world) :=
  match options (self w) m path timeoutMs baseOverride with
  | None => None
  | Some r =>
      Some (next w,
            {| self := self w;
               heap := <[next w := {| issued := r; destroyed := false;
                                      promise := None |}]> (heap w);
               next := S (next w) |})
  end.

(** [_fetchTracked]: the handle stored in the slot, or the rejection of
    the promise when the executor threw before the assignment. *)
Definition _fetchTracked (w : world) (m : method) (path : jsstring)
    : world * (handle + failure) :=
  match _makeRequest w m path TIMEOUT_MS None with
  | None => (w, inr TypeError)
  | Some (req, w') =>
      ({| self := {| _baseUrl := _baseUrl (self w'); _vibeRequest := Some req |};
          heap := heap w'; next := next w' |}, inl req)
  end.

(** [_fire], up to the creation of the request. *)
Definition fire_start (w : world) (m : method) (path : jsstring) (timeoutMs : N)
    (baseOverride : option jsstring) : world * (handle + failure) :=
  match _makeRequest w m path timeoutMs baseOverride with
  | None => (w, inr TypeError)
  | Some (req, w') => (w', inl req)
  end.

Definition sendVibe (w : world) : world * (handle + failure) :=
  _fetchTracked w POST (js "/vibe").

(** [if (this._vibeRequest === req) { this._vibeRequest = null; }] *)
Definition release (c : client) (req : handle) : client :=
  if bool_decide (_vibeRequest c = Some req)
  then {| _baseUrl := _baseUrl c; _vibeRequest := None |}
  else c.

(** [resolve] and [reject] settle a promise once. *)
Definition settle_once (r : settled value) (x : inflight) : inflight :=
  match promise x with
  | Some _ => x
  | None => {| issued := issued x; destroyed := destroyed x; promise := Some r |}
  end.

Definition destroy (x : inflight) : inflight :=
  {| issued := issued x; destroyed := true; promise := promise x |}.

(** What the handlers [_makeRequest] installs on a request do to it:
    [end] and [error] settle its promise, [timeout] destroys it first. An
    [end] handler that throws leaves the request as it is. *)
Definition finish (x : exchange) (i : inflight) : inflight :=
  match x with
  | Ended statusCode data =>
      match on_end statusCode data with
      | Some r => settle_once r i
      | None => i
      end
  | Errored err => settle_once (on_error err) i
  | TimedOut => settle_once (on_timeout (req_timeout (issued i))) (destroy i)
  end.

(** One of the three handlers runs for request [req]: the slot is
    released if it holds [req], and the request is finished. *)
Definition completion (w : world) (req : handle) (x : exchange) : world :=
  {| self := release (self w) req;
     heap := alter (finish x) req (heap w);
     next := next w |}.

Definition abort (w : world) : world :=
  match _vibeRequest (self w) with
  | Some req =>
      {| self := {| _baseUrl := _baseUrl (self w); _vibeRequest := None |};
         heap := alter destroy req (heap w);
         next := next w |}
  | None => w
  end.

(** What can happen to a client, one step at a time. *)
Inductive step : world -> world -> Prop :=
  | step_tracked w m path :
      step w (fst (_fetchTracked w m path))
  | step_fire w m path timeoutMs baseOverride :
      step w (fst (fire_start w m path timeoutMs baseOverride))
  | step_completion w req x i :
      heap w !! req = Some i -> step w (completion w req x)
  | step_abort w :
      step w (abort w).

Inductive reachable (baseUrl : jsstring) : world -> Prop :=
  | reach_new : reachable baseUrl (new_world baseUrl)
  | reach_step w w' : reachable baseUrl w -> step w w' -> reachable baseUrl w'.

(** Handles in use are below the next one, and a request held by the
    slot is neither settled nor destroyed. *)
Definition sound (w : world) : Prop :=
  (forall req i, heap w !! req = Some i -> req < next w) /\
  (forall req, _vibeRequest (self w) = Some req ->
     exists i, heap w !! req = Some i /\ promise i = None /\ destroyed i = false).

End WithRuntime.

End BrainClient.

(** ** A small host

    An instance of [Runtime] that computes, for running the client on
    concrete inputs: JSON texts whose numbers are integers below 2^53 and
    whose strings use no [\u] escape, and URLs of the shape
    [http[s]://host[:port][/path]] whose host is a lower-case name or a
    dotted quad in its canonical form and whose path needs no
    normalisation. On these inputs it answers as the built-ins do. Every
    other text is refused, also where the built-in reads it (a number with
    a fraction or an exponent, a host such as [127.1], a path with dot
    segments); the examples of this file stay inside the fragment. *)

Module Host.

Fixpoint span (f : N -> bool) (s : jsstring) : jsstring * jsstring :=
  match s with
  | c :: r => if f c then let '(a, b) := span f r in (c :: a, b) else ([], s)
  | [] => ([], [])
  end.

Definition is_digit (c : N) : bool := (48 <=? c)%N && (c <=? 57)%N.
Definition is_lower (c : N) : bool := (97 <=? c)%N && (c <=? 122)%N.
Definition is_json_space (c : N) : bool :=
  existsb (N.eqb c) [32; 9; 10; 13]%N.

Fixpoint skip_space (s : jsstring) : jsstring :=
  match s with
  | c :: r => if is_json_space c then skip_space r else s
  | [] => []
  end.

Definition digits_value (ds : jsstring) : N :=
  fold_left (fun acc d => (10 * acc + (d - 48))%N) ds 0%N.

(** *** Numbers *)

Fixpoint float_of_positive (p : positive) : float :=
  match p with
  | xH => 1%float
  | xO q => (2 * float_of_positive q)%float
  | xI q => (2 * float_of_positive q + 1)%float
  end.

Definition float_of_N (n : N) : float :=
  match n with
  | N0 => 0%float
  | Npos p => float_of_positive p
  end.

Fixpoint pow2 (i : nat) : float :=
  match i with
  | O => 1%float
  | S j => (2 * pow2 j)%float
  end.

(** The integral part of [x] below [2^i], and what is left of [x]. *)
Fixpoint integral_bits (i : nat) (x : float) : N * float :=
  match i with
  | O => (0%N, x)
  | S j =>
      if PrimFloat.leb (pow2 j) x
      then let '(n, r) := integral_bits j (x - pow2 j)%float in
           ((2 ^ N.of_nat j + n)%N, r)
      else integral_bits j x
  end.

(** Exact on the integers of magnitude below 2^53 and on NaN; the integral
    part is printed for the other numbers of that magnitude. *)
Definition print_number (x : float) : jsstring :=
  if PrimFloat.is_nan x then js "NaN"
  else if PrimFloat.ltb x 0%float
  then js "-" ++ decimal (fst (integral_bits 53 (- x)%float))
  else decimal (fst (integral_bits 53 x)).

(** *** JSON *)

Definition unescape (c : N) : option N :=
  if (c =? 34)%N then Some 34%N
  else if (c =? 92)%N then Some 92%N
  else if (c =? 47)%N then Some 47%N
  else if (c =? 98)%N then Some 8%N
  else if (c =? 102)%N then Some 12%N
  else if (c =? 110)%N then Some 10%N
  else if (c =? 114)%N then Some 13%N
  else if (c =? 116)%N then Some 9%N
  else None.

(** The text of a string after its opening quote. *)
Fixpoint read_string (s : jsstring) (acc : jsstring) : option (jsstring * jsstring) :=
  match s with
  | [] => None
  | c :: r =>
      if (c =? 34)%N then Some (rev acc, r)
      else if (c =? 92)%N then
        match r with
        | e :: r' =>
            match unescape e with
            | Some ch => read_string r' (ch :: acc)
            | None => None
            end
        | [] => None
        end
      else if (c <? 32)%N then None
      else read_string r (c :: acc)
  end.

Definition read_number (s : jsstring) : option (value * jsstring) :=
  let '(negative, s1) :=
    match s with
    | c :: r => if (c =? 45)%N then (true, r) else (false, s)
    | [] => (false, s)
    end in
  let '(ds, rest) := span is_digit s1 in
  match ds with
  | [] => None
  | d :: more =>
      if (d =? 48)%N && negb (bool_decide (more = [])) then None
      else
        let n := digits_value ds in
        if (n <? 2 ^ 53)%N
        then Some (VNum (if negative then - float_of_N n else float_of_N n)%float, rest)
        else None
  end.

(** An assignment to property [k]: in place when the object has it, at
    the end otherwise. *)
Fixpoint set_property (k : jsstring) (v : value) (props : list (jsstring * value))
    : list (jsstring * value) :=
  match props with
  | [] => [(k, v)]
  | (k', v') :: r =>
      if jsstring_eqb k k' then (k, v) :: r else (k', v') :: set_property k v r
  end.

Fixpoint read_value (fuel : nat) (s : jsstring) : option (value * jsstring) :=
  match fuel with
  | O => None
  | S f =>
      match skip_space s with
      | [] => None
      | c :: r =>
          if (c =? 123)%N then
            match skip_space r with
            | c2 :: r2 => if (c2 =? 125)%N then Some (VObj [], r2)
                          else read_members f r []
            | [] => None
            end
          else if (c =? 91)%N then
            match skip_space r with
            | c2 :: r2 => if (c2 =? 93)%N then Some (VArr [], r2)
                          else read_items f r []
            | [] => None
            end
          else if (c =? 34)%N then
            match read_string r [] with
            | Some (str, rest) => Some (VStr str, rest)
            | None => None
            end
          else if startsWith (js "true") (c :: r) then Some (VBool true, skipn 4 (c :: r))
          else if startsWith (js "false") (c :: r) then Some (VBool false, skipn 5 (c :: r))
          else if startsWith (js "null") (c :: r) then Some (VNull, skipn 4 (c :: r))
          else read_number (c :: r)
      end
  end
with read_members (fuel : nat) (s : jsstring) (acc : list (jsstring * value))
    : option (value * jsstring) :=
  match fuel with
  | O => None
  | S f =>
      match skip_space s with
      | c :: r =>
          if (c =? 34)%N then
            match read_string r [] with
            | Some (k, r1) =>
                match skip_space r1 with
                | c1 :: r2 =>
                    if (c1 =? 58)%N then
                      match read_value f r2 with
                      | Some (v, r3) =>
                          match skip_space r3 with
                          | c3 :: r4 =>
                              if (c3 =? 44)%N then read_members f r4 (set_property k v acc)
                              else if (c3 =? 125)%N
                              then Some (VObj (set_property k v acc), r4)
                              else None
                          | [] => None
                          end
                      | None => None
                      end
                    else None
                | [] => None
                end
            | None => None
            end
          else None
      | [] => None
      end
  end
with read_items (fuel : nat) (s : jsstring) (acc : list value)
    : option (value * jsstring) :=
  match fuel with
  | O => None
  | S f =>
      match read_value f s with
      | Some (v, r1) =>
          match skip_space r1 with
          | c :: r2 =>
              if (c =? 44)%N then read_items f r2 (acc ++ [v])
              else if (c =? 93)%N then Some (VArr (acc ++ [v]), r2)
              else None
          | [] => None
          end
      | None => None
      end
  end.

Definition read_json (text : jsstring) : option value :=
  match read_value (2 * length text + 2) text with
  | Some (v, rest) =>
      match skip_space rest with
      | [] => Some v
      | _ :: _ => None
      end
  | None => None
  end.

(** *** URLs *)

Definition is_host_unit (c : N) : bool :=
  is_lower c || is_digit c || (c =? 46)%N || (c =? 45)%N.

(** Letters, digits, [/], [-] and [_]: a path of these is its own
    [pathname]. *)
Definition is_path_unit (c : N) : bool :=
  is_lower c || ((65 <=? c)%N && (c <=? 90)%N) || is_digit c
  || (c =? 47)%N || (c =? 45)%N || (c =? 95)%N.

Definition default_port (scheme : jsstring) : option N :=
  if jsstring_eqb scheme (js "http") then Some 80%N
  else if jsstring_eqb scheme (js "https") then Some 443%N
  else None.

Definition is_hex (c : N) : bool := is_digit c || ((97 <=? c)%N && (c <=? 102)%N).

(** A label the URL parser reads as a number: decimal digits, or [0x]
    and hexadecimal digits. A host whose last label is one is parsed as an
    IPv4 address. *)
Definition numeric_label (l : jsstring) : bool :=
  (negb (bool_decide (l = [])) && forallb is_digit l)
  || (startsWith (js "0x") l && forallb is_hex (skipn 2 l)).

(** A part of a dotted quad in canonical form: decimal, without a leading
    zero, at most 255. *)
Definition quad_part (l : jsstring) : bool :=
  match l with
  | [] => false
  | d :: more =>
      forallb is_digit l
      && negb ((d =? 48)%N && negb (bool_decide (more = [])))
      && (digits_value l <=? 255)%N
  end.

(** The hosts of the fragment: labels that are not empty and do not begin
    with [xn--]; when the last label is numeric, four canonical parts. *)
Definition host_ok (host : jsstring) : bool :=
  let labels := split [46%N] host in
  forallb (fun l => negb (bool_decide (l = [])) && negb (startsWith (js "xn--") l)) labels
  && (if numeric_label (List.last labels [])
      then (length labels =? 4) && forallb quad_part labels
      else true).

Definition read_path (s : jsstring) : option jsstring :=
  match s with
  | [] => Some (js "/")
  | c :: _ => if (c =? 47)%N && forallb is_path_unit s then Some s else None
  end.

Definition read_url (s : jsstring) : option URL :=
  let '(scheme, r) := span is_lower s in
  if bool_decide (default_port scheme = None) || negb (startsWith (js "://") r) then None
  else
    let '(host, r1) := span is_host_unit (skipn 3 r) in
    if negb (host_ok host) then None
    else
      let '(given, r2) :=
        match r1 with
        | c :: r' => if (c =? 58)%N then span is_digit r' else ([], r1)
        | [] => ([], r1)
        end in
      let number := digits_value given in
      if (65535 <? number)%N then None
      else
        match read_path r2 with
        | None => None
        | Some path =>
            Some {| protocol := scheme ++ js ":";
                    hostname := host;
                    port := if bool_decide (given = [])
                               || bool_decide (default_port scheme = Some number)
                            then None else Some number;
                    pathname := path |}
        end.

#[export] Instance small : Runtime :=
  {| JSON_parse := read_json; URL_new := read_url; Number_toString := print_number |}.

End Host.

(** ** The connectivity monitor (extension entry point) *)

Module Monitor.

Record state := { failCount : float; wasOnline : bool }.

Definition MAX_FAILS : float := 3%float.

Definition initial : state := {| failCount := 0%float; wasOnline := false |}.

(** One run of [doHealthCheck], given what [healthCheck] resolved to. The
    second component is the argument of [updateBrainStatus] when it is
    called. *)
Definition doHealthCheck (s : state) (ok : bool) : state * option bool :=
  if ok then
    let s1 := {| failCount := 0%float; wasOnline := wasOnline s |} in
    if negb (wasOnline s1)
    then ({| failCount := failCount s1; wasOnline := true |}, Some true)
    else (s1, None)
  else
    let s1 := {| failCount := (failCount s + 1)%float; wasOnline := wasOnline s |} in
    if PrimFloat.leb MAX_FAILS (failCount s1) && wasOnline s1
    then ({| failCount := failCount s1; wasOnline := false |}, Some false)
    else (s1, None).

Definition step (s : state) (ok : bool) : state := fst (doHealthCheck s ok).

(** The state after a sequence of probe outcomes, oldest first. *)
Definition run (outcomes : list bool) : state := fold_left step outcomes initial.

(** The failures observed since the last success. *)
Fixpoint leading_fails (l : list bool) : nat :=
  match l with
  | false :: r => S (leading_fails r)
  | _ => 0
  end.

Definition trailing_fails (outcomes : list bool) : nat := leading_fails (rev outcomes).

(** The counter as a binary64, for a count below the threshold. *)
Definition counter_of (n : nat) : float :=
  match n with
  | 0 => 0%float
  | 1 => 1%float
  | _ => 2%float
  end.

End Monitor.

(** ** What the monitor tells the sidebar *)

Module Notifications.
Import Monitor.

(** The arguments of the calls of [updateBrainStatus] that [doHealthCheck]
    makes over a sequence of probe outcomes, oldest first, from state [s]. *)
Fixpoint notes_from (s : state) (outcomes : list bool) : list bool :=
  match outcomes with
  | [] => []
  | ok :: r =>
      match snd (doHealthCheck s ok) with
      | Some b => b :: notes_from (step s ok) r
      | None => notes_from (step s ok) r
      end
  end.

Definition notes (outcomes : list bool) : list bool := notes_from initial outcomes.

(** [first], its negation, [first] again, ... *)
Fixpoint alternation (first : bool) (n : nat) : list bool :=
  match n with
  | O => []
  | S k => first :: alternation (negb first) k
  end.

End Notifications.

(** ** More inputs for the health check *)

Module HealthExamples.
Import BrainClient.

(** A configured address that [new URL] refuses. *)
Definition misconfigured : client := constructor (js "localhost 8420").

(** The client after the Brain was found on port 8423. *)
Definition moved_to_8423 : client :=
  {| _baseUrl := js "http://127.0.0.1:8423"; _vibeRequest := None |}.

End HealthExamples.

(** ** Request objects over time *)

Module Continuity.
Import BrainClient.

(** What stays of a request object from one state to a later one: [i'] has
    the options [i] was issued with, is destroyed if [i] was, and is settled
    as [i] was. *)
Definition continues (i i' : inflight) : Prop :=
  issued i' = issued i /\
  (destroyed i = true -> destroyed i' = true) /\
  (forall r, promise i = Some r -> promise i' = Some r).

End Continuity.

(** ** More streams *)

Module StreamExamples.
Import BrainClient.

(** A stream whose units end in CR LF CR LF. *)
Definition crlf_stream : jsstring :=
  js "data: " ++ example_payload1 ++ [13; 10; 13; 10]%N
     ++ js "data: " ++ example_payload2 ++ [13; 10; 13; 10]%N.

End StreamExamples.

(** ** Sending a prompt to the editor's agent (extension entry point) *)

Module Extension.

(** The editors [detectIDE] tells apart. *)
Inductive ide := cursor | windsurf | claude_code | copilot | vscode.

(** The string of the union type [detectIDE] returns. *)
Definition ide_name (i : ide) : jsstring :=
  match i with
  | cursor => js "cursor"
  | windsurf => js "windsurf"
  | claude_code => js "claude-code"
  | copilot => js "copilot"
  | vscode => js "vscode"
  end.

(** [s.includes(t)] *)
Fixpoint includes (s t : jsstring) : bool :=
  startsWith t s
  || match s with
     | [] => false
     | _ :: r => includes r t
     end.

(** [new Set(commands).has(x)] *)
Definition has (commands : list jsstring) (x : jsstring) : bool :=
  existsb (jsstring_eqb x) commands.

(** The second argument of [executeCommand]: the prompt itself, or
    [{ query: prompt }]. *)
Inductive argument :=
  | Text (prompt : jsstring)
  | Query (prompt : jsstring).

(** The editor, as far as the dispatch asks it: [vscode.env.appName] in
    lower case, what [getCommands(true)] resolves to ([None] when it
    rejects), whether [clipboard.writeText] resolves, and whether a call of
    [executeCommand] resolves, given how many calls of the editor were made
    before it. *)
Record editor := {
  appName : jsstring;
  getCommands : option (list jsstring);
  clipboard : bool;
  runs : nat -> jsstring -> option argument -> bool
}.

(** The calls made to the editor, with what came of them. *)
Inductive effect :=
  | WriteText (text : jsstring) (ok : bool)
  | GetCommands (ok : bool)
  | ExecuteCommand (command : jsstring) (arg : option argument) (ok : bool)
  | Delay (ms : N)
  | ShowInformationMessage (text : jsstring).

(** An asynchronous function: from the calls made so far to its result
    ([None] when it throws) and the calls made after it. *)
Definition M (A : Type) : Type := list effect -> option A * list effect.

Definition ret {A} (x : A) : M A := fun tr => (Some x, tr).

Definition throw {A} : M A := fun tr => (None, tr).

Definition bind {A B} (m : M A) (k : A -> M B) : M B :=
  fun tr =>
    match m tr with
    | (Some x, tr') => k x tr'
    | (None, tr') => (None, tr')
    end.

(** [try { body } catch { handler }] *)
Definition try_catch {A} (body handler : M A) : M A :=
  fun tr =>
    match body tr with
    | (Some x, tr') => (Some x, tr')
    | (None, tr') => handler tr'
    end.

Notation "'await' x := m 'in' k" := (bind m (fun x => k))
  (at level 10, x name, m at level 100, k at level 200).
Notation "'wait' m 'in' k" := (bind m (fun _ => k))
  (at level 10, m at level 100, k at level 200).

Section WithEditor.
Variable e : editor.

Definition writeText (text : jsstring) : M unit :=
  fun tr => (if clipboard e then Some tt else None, tr ++ [WriteText text (clipboard e)]).

Definition readCommands : M (list jsstring) :=
  fun tr =>
    match getCommands e with
    | Some commands => (Some commands, tr ++ [GetCommands true])
    | None => (None, tr ++ [GetCommands false])
    end.

Definition executeCommand (command : jsstring) (arg : option argument) : M unit :=
  fun tr =>
    let ok := runs e (length tr) command arg in
    (if ok then Some tt else None, tr ++ [ExecuteCommand command arg ok]).

Definition delay (ms : N) : M unit := fun tr => (Some tt, tr ++ [Delay ms]).

Definition showInformationMessage (text : jsstring) : M unit :=
  fun tr => (Some tt, tr ++ [ShowInformationMessage text]).

Definition detectIDE : M ide :=
  let appName := appName e in
  if includes appName (js "cursor") then ret cursor
  else if includes appName (js "windsurf") || includes appName (js "codeium")
          || includes appName (js "antigravity") then ret windsurf
  else if includes appName (js "claude") then ret claude_code
  else
    await commands := readCommands in
    if has commands (js "composerMode.agent") || has commands (js "cursor.newComposer")
    then ret cursor
    else if has commands (js "codeium.openChat") || has commands (js "windsurf.openChat")
    then ret windsurf
    else if has commands (js "claude.newConversation")
            || has commands (js "claudeCode.startTask")
    then ret claude_code
    else if has commands (js "github.copilot.chat.open")
            || has commands (js "workbench.action.chat.open")
    then ret copilot
    else ret vscode.

Definition sendToCursor (prompt : jsstring) : M unit :=
  try_catch
    (wait executeCommand (js "composerMode.agent") None in
     wait delay 300 in
     executeCommand (js "editor.action.clipboardPasteAction") None)
    (try_catch
       (executeCommand (js "cursor.newComposer") (Some (Text prompt)))
       (executeCommand (js "workbench.action.chat.open") (Some (Query prompt)))).

Definition sendToWindsurf (prompt : jsstring) : M unit :=
  try_catch
    (wait executeCommand (js "codeium.openChat") None in
     wait delay 400 in
     executeCommand (js "editor.action.clipboardPasteAction") None)
    (try_catch
       (wait executeCommand (js "windsurf.openChat") None in
        wait delay 400 in
        executeCommand (js "editor.action.clipboardPasteAction") None)
       (executeCommand (js "workbench.action.chat.open") (Some (Query prompt)))).

Definition sendToClaudeCode (prompt : jsstring) : M unit :=
  try_catch
    (executeCommand (js "claude.newConversation") (Some (Text prompt)))
    (try_catch
       (executeCommand (js "claudeCode.startTask") (Some (Text prompt)))
       (executeCommand (js "workbench.action.chat.open") (Some (Query prompt)))).

Definition sendToCopilot (prompt : jsstring) : M unit :=
  try_catch
    (executeCommand (js "workbench.action.chat.open") (Some (Query prompt)))
    (try_catch
       (executeCommand (js "github.copilot.chat.open") (Some (Query prompt)))
       throw).

Definition sendToGenericChat (prompt : jsstring) : M unit :=
  try_catch
    (executeCommand (js "workbench.action.chat.open") (Some (Query prompt)))
    (showInformationMessage (js "Prompt copied to clipboard! Paste it in your AI agent.")).

(** The [try] block of [sendPromptToAgent], with its [catch]. *)
Definition dispatch (i : ide) (prompt : jsstring) : M unit :=
  try_catch
    match i with
    | cursor => sendToCursor prompt
    | windsurf => sendToWindsurf prompt
    | claude_code => sendToClaudeCode prompt
    | copilot => sendToCopilot prompt
    | vscode => sendToGenericChat prompt
    end
    (showInformationMessage
       (js "Prompt copied to clipboard! Paste it in your AI agent. (Detected IDE: "
           ++ ide_name i ++ js ")")).

Definition sendPromptToAgent (prompt : jsstring) : M unit :=
  wait writeText prompt in
  await i := detectIDE in
  dispatch i prompt.

(** The editor's name settles which editor it is. *)
Definition named : bool :=
  includes (appName e) (js "cursor") || includes (appName e) (js "windsurf")
  || includes (appName e) (js "codeium") || includes (appName e) (js "antigravity")
  || includes (appName e) (js "claude").

End WithEditor.

(** The information messages shown, the commands executed and the clipboard
    writes among some calls. *)
Definition messages (tr : list effect) : list jsstring :=
  omap (fun ef => match ef with ShowInformationMessage t => Some t | _ => None end) tr.

Definition executed (tr : list effect) : list (jsstring * option argument * bool) :=
  omap (fun ef => match ef with
                  | ExecuteCommand c a ok => Some (c, a, ok)
                  | _ => None
                  end) tr.

Definition written (tr : list effect) : list jsstring :=
  omap (fun ef => match ef with WriteText t _ => Some t | _ => None end) tr.

(** An editor called Cursor in which no command works, and a plain editor
    whose chat opens. *)
Definition broken_cursor : editor :=
  {| appName := js "cursor"; getCommands := None; clipboard := true;
     runs := fun _ _ _ => false |}.

Definition plain_editor : editor :=
  {| appName := js "visual studio code";
     getCommands := Some [js "workbench.action.openSettings"];
     clipboard := true;
     runs := fun _ c _ => jsstring_eqb c (js "workbench.action.chat.open") |}.

End Extension.

(** ** The sidebar's handlers over the client (sidebar provider) *)

Module Sidebar.
Import BrainClient.

(** What a [catch] of the sidebar can receive: a rejection of the client, the
    TypeError of reading property [key] of [null], or the rejection of a call
    to the editor. *)
Inductive thrown :=
  | FromClient (e : failure)
  | NullRead (key : jsstring)
  | FromEditor.

(** A text posted to the webview: a given string, or
    [e instanceof Error ? e.message : String(e)] for a caught [e]. *)
Inductive text :=
  | Literal (s : jsstring)
  | MessageOf (e : thrown).

(** The text shown for a caught value; the message of an [Error] the client
    made is known. *)
Definition shown (e : thrown) : text :=
  match e with
  | FromClient (Error m) => Literal m
  | _ => MessageOf e
  end.

(** The messages [_post] is called with. *)
Inductive post :=
  | Loading (on : bool)
  | Result (prompt ms model agent quality grade security : value)
  | Err (msg : text)
  | AllModels (installed current catalog : value)
  | PullStart (model : jsstring)
  | PullProgress (model : jsstring) (pct status : value)
  | PullDone (model : jsstring)
  | PullFail (model : jsstring) (msg : text).

(** What a handler does, in order: posts, the command that sends the prompt
    to the agent (with whether it resolved), and the unawaited call of
    [_loadAll]. *)
Inductive event :=
  | Post (p : post)
  | SendToAgent (prompt : value) (ok : bool)
  | LoadAll.

Definition S (A : Type) : Type := list event -> (A + thrown) * list event.

Definition unit_ {A} (x : A) : S A := fun tr => (inl x, tr).

Definition raise {A} (e : thrown) : S A := fun tr => (inr e, tr).

Definition then_ {A B} (m : S A) (k : A -> S B) : S B :=
  fun tr =>
    match m tr with
    | (inl x, tr') => k x tr'
    | (inr e, tr') => (inr e, tr')
    end.

(** [try { body } catch (e) { handler }] *)
Definition catching {A} (body : S A) (handler : thrown -> S A) : S A :=
  fun tr =>
    match body tr with
    | (inl x, tr') => (inl x, tr')
    | (inr e, tr') => handler e tr'
    end.

(** [try { body } finally { last }], for a [last] that does not throw. *)
Definition finally {A} (body : S A) (last : S unit) : S A :=
  fun tr =>
    match body tr with
    | (r, tr') => (r, snd (last tr'))
    end.

Notation "'get!' x := m 'in' k" := (then_ m (fun x => k))
  (at level 10, x name, m at level 100, k at level 200).
Notation "'do!' m 'in' k" := (then_ m (fun _ => k))
  (at level 10, m at level 100, k at level 200).

Definition _post (p : post) : S unit := fun tr => (inl tt, tr ++ [Post p]).

(** [await promise] *)
Definition awaited {A} (r : settled A) : S A :=
  match r with
  | Resolved v => unit_ v
  | Rejected e => raise (FromClient e)
  end.

(** [v.key] *)
Definition read (v : value) (key : jsstring) : S value :=
  match get v key with
  | Some x => unit_ x
  | None => raise (NullRead key)
  end.

(** [v ?? d] *)
Definition nullish (v d : value) : value :=
  match v with
  | VUndefined | VNull => d
  | _ => v
  end.

(** The truth value of [v?.length]. *)
Definition length_truthy (v : value) : bool :=
  match v with
  | VArr items => negb (bool_decide (items = []))
  | VStr s => negb (bool_decide (s = []))
  | VObj props => truthy (own_property (js "length") props)
  | _ => false
  end.

(** [handleVibe], given what [sendVibe] settles to, the [autoSendToAgent]
    setting and whether the command that sends the prompt on resolves. *)
Definition handleVibe (reply : settled value) (autoSend agent_ok : bool) : S unit :=
  do! _post (Loading true) in
  finally
    (catching
       (get! r := awaited reply in
        get! prompt := read r (js "prompt") in
        get! ms := read r (js "generation_time_ms") in
        get! model := read r (js "model_used") in
        get! agent := read r (js "agent_used") in
        get! quality := read r (js "quality_score") in
        get! grade := read r (js "quality_grade") in
        get! security := read r (js "security_verdict") in
        do! _post (Result prompt ms model agent
                          (nullish quality (VNum 0%float))
                          (nullish grade (VStr []))
                          (nullish security (VStr (js "PASS")))) in
        if autoSend then
          get! prompt' := read r (js "prompt") in
          fun tr => (if agent_ok then inl tt else inr FromEditor,
                     tr ++ [SendToAgent prompt' agent_ok])
        else unit_ tt)
       (fun e => _post (Err (shown e))))
    (_post (Loading false)).

Section WithRuntime.
Context {R : Runtime}.

(** [await this._brain.pullModel(model, (pct, status) => this._post(...))] *)
Definition pulled (c : client) (m : jsstring) (x : pull_exchange) : S PullOutcome :=
  fun tr =>
    let '(result, calls) := pullModel c m true x in
    (match result with
     | Resolved res => inl res
     | Rejected e => inr (FromClient e)
     end,
     tr ++ map (fun call => Post (PullProgress m (fst call) (snd call))) calls).

Definition _pullModel (c : client) (m : jsstring) (x : pull_exchange) : S unit :=
  do! _post (PullStart m) in
  catching
    (get! res := pulled c m x in
     if jsstring_eqb (status res) (js "ok")
     then do! _post (PullDone m) in fun tr => (inl tt, tr ++ [LoadAll])
     else _post (PullFail m (Literal (default (js "Unknown error") (message res)))))
    (fun e => _post (PullFail m (shown e))).

End WithRuntime.

Section WithCatalog.
(** The static catalog of the provider. *)
Variable FALLBACK_CATALOG : value.

(** [promise.catch(() => fallback)] *)
Definition or_else (r : settled value) (fallback : value) : value :=
  match r with
  | Resolved v => v
  | Rejected _ => fallback
  end.

(** [_loadAll], given what [listModels] and [catalogModels] settle to. *)
Definition _loadAll (models_reply catalog_reply : settled value) : S unit :=
  catching
    (let installed :=
       or_else models_reply
               (VObj [(js "models", VArr []); (js "current", VStr [])]) in
     let catalog := or_else catalog_reply (VObj [(js "catalog", VArr [])]) in
     get! listed := read catalog (js "catalog") in
     let cat := if length_truthy listed then listed else FALLBACK_CATALOG in
     get! models := read installed (js "models") in
     get! current := read installed (js "current") in
     _post (AllModels models current cat))
    (fun _ => _post (AllModels (VArr []) (VStr []) FALLBACK_CATALOG)).

End WithCatalog.

(** The posts among some events. *)
Definition posts (tr : list event) : list post :=
  omap (fun ev => match ev with Post p => Some p | _ => None end) tr.

(** Property [key] of a reply that has properties. *)
Definition field (r : value) (key : jsstring) : value :=
  default VUndefined (get r key).

(** The post [handleVibe] makes of a reply. *)
Definition result_of (r : value) : post :=
  Result (field r (js "prompt")) (field r (js "generation_time_ms"))
         (field r (js "model_used")) (field r (js "agent_used"))
         (nullish (field r (js "quality_score")) (VNum 0%float))
         (nullish (field r (js "quality_grade")) (VStr []))
         (nullish (field r (js "security_verdict")) (VStr (js "PASS"))).

(** The chunks a pull exchange delivered. *)
Definition chunks_of (x : pull_exchange) : list jsstring :=
  match x with
  | PullEnded chunks | PullErrored chunks _ | PullTimedOut chunks => chunks
  end.

(** A generation reply. *)
Definition generation_reply : value :=
  VObj [(js "prompt", VStr (js "Build a login page")); (js "generation_time_ms", VNum 1200%float);
        (js "model_used", VStr (js "gemma2:2b")); (js "agent_used", VStr (js "auto"))].

End Sidebar.

(** ** Properties of the connectivity monitor *)

Module MonitorFacts.
Import Monitor.

Lemma run_snoc pre b : run (pre ++ [b]) = step (run pre) b.
Proof. unfold run. by rewrite fold_left_app. Qed.

Lemma trailing_fails_snoc pre b :
  trailing_fails (pre ++ [b]) = if b then 0 else S (trailing_fails pre).
Proof. unfold trailing_fails. rewrite rev_app_distr. by destruct b. Qed.

(** While online the counter is the number of failures since the last
    success, and that number is below the threshold. *)
Lemma online_counter pre :
  wasOnline (run pre) = true ->
  trailing_fails pre <= 2 /\ failCount (run pre) = counter_of (trailing_fails pre).
Proof.
  induction pre as [|b pre IH] using rev_ind; [done|].
  rewrite run_snoc, trailing_fails_snoc.
  destruct b; unfold step, doHealthCheck; simpl.
  - destruct (wasOnline (run pre)); simpl; intros _; split; auto with lia.
  - destruct (wasOnline (run pre)) eqn:Hon; simpl.
    + destruct (IH eq_refl) as [Hle Hfc]. rewrite Hfc.
      destruct (trailing_fails pre) as [|[|[|n]]]; simpl;
        first [discriminate | intros _; split; [lia|reflexivity]].
    + rewrite andb_false_r. simpl. discriminate.
Qed.

(** Three failures after a success take the monitor offline, two do not, and
    failures counted while offline do not delay the recovery. *)
Example three_failures_go_offline :
  map (fun l => wasOnline (run l))
      [[true; false; false]; [true; false; false; false];
       [false; false; false; false; true]; [true; false; false; true; false; false]] =
  [true; false; true; true].
Proof. vm_compute. reflexivity. Qed.

(** C1. Driven from Offline with a zero counter through any sequence of
    probe outcomes: while Online the state flips to Offline exactly at the
    third consecutive failure since the last success (not at the first or
    second, and not on a success); from Offline one success flips to Online
    whatever the counter holds; every success resets the counter to 0. *)
Theorem hysteresis_three_failures : forall (pre : list bool) (b : bool),
  (wasOnline (run pre) = true ->
     (wasOnline (run (pre ++ [b])) = false <-> b = false /\ trailing_fails pre = 2)) /\
  (wasOnline (run pre) = true -> trailing_fails pre < 2 ->
     wasOnline (run (pre ++ [b])) = true) /\
  (wasOnline (run pre) = false -> b = true -> wasOnline (run (pre ++ [b])) = true) /\
  (b = true -> failCount (run (pre ++ [b])) = 0%float).
Proof.
  intros pre b. rewrite run_snoc.
  assert (Hflip : wasOnline (run pre) = true ->
    (wasOnline (step (run pre) b) = false <-> b = false /\ trailing_fails pre = 2)).
  { intros Hon. destruct (online_counter pre Hon) as [Hle Hfc].
    unfold step, doHealthCheck. rewrite Hon. destruct b; simpl.
    - split; [discriminate | intros [? _]; discriminate].
    - rewrite Hfc.
      destruct (trailing_fails pre) as [|[|[|n]]]; simpl; try lia;
        (split; [try discriminate; auto | try (intros [_ ?]; discriminate); auto]). }
  split; [exact Hflip|]. split; [|split].
  - intros Hon Hlt. apply not_false_iff_true. intros E.
    apply (Hflip Hon) in E. lia.
  - intros Hoff ->. unfold step, doHealthCheck. simpl. by rewrite Hoff.
  - intros ->. unfold step, doHealthCheck. simpl. by destruct (wasOnline (run pre)).
Qed.

End MonitorFacts.

(** ** Splitting a text into pieces *)

Module SplitFacts.

Lemma startsWith_length sep s : startsWith sep s = true -> length sep <= length s.
Proof.
  revert s. induction sep as [|a sep IH]; intros [|b s]; simpl; try lia; try discriminate.
  intros [_ H]%andb_true_iff. apply IH in H. lia.
Qed.

Lemma startsWith_app sep s t : startsWith sep s = true -> startsWith sep (s ++ t) = true.
Proof.
  revert s. induction sep as [|a sep IH]; intros [|b s]; simpl; try done.
  intros [-> H]%andb_true_iff. simpl. by apply IH.
Qed.

Lemma startsWith_app_long sep s t :
  length sep <= length s -> startsWith sep (s ++ t) = startsWith sep s.
Proof.
  revert s. induction sep as [|a sep IH]; intros [|b s]; simpl; try done; try lia.
  intros H. rewrite IH; [done | lia].
Qed.

Lemma split_from_nonempty sep skip s : split_from sep skip s <> [].
Proof.
  revert skip. induction s as [|c r IH]; intros skip; simpl; [done|].
  destruct skip; [|apply IH].
  destruct (startsWith sep (c :: r)); [done|].
  specialize (IH 0). by destruct (split_from sep 0 r).
Qed.

(** A text shorter than the separator is one piece. *)
Lemma split_from_short sep s :
  length s < length sep -> split_from sep 0 s = [s].
Proof.
  induction s as [|c r IH]; intros Hlen; simpl; [done|].
  destruct (startsWith sep (c :: r)) eqn:E.
  - apply startsWith_length in E. simpl in *. lia.
  - rewrite IH; [done | simpl in Hlen; lia].
Qed.

(** A split in one piece found no separator. *)
Lemma split_from_single sep s p : split_from sep 0 s = [p] -> p = s.
Proof.
  revert p. induction s as [|c r IH]; intros p; simpl.
  - by intros [= <-].
  - destruct (startsWith sep (c :: r)).
    + intros [= <- H]. by apply split_from_nonempty in H.
    + destruct (split_from sep 0 r) as [|q [|q' qs]] eqn:E; simpl; intros [= <-].
      * by apply split_from_nonempty in E.
      * by rewrite (IH q eq_refl).
Qed.

Lemma removelast_cons {A} (x : A) l : l <> [] -> removelast (x :: l) = x :: removelast l.
Proof. by destruct l. Qed.

Lemma last_cons {A} (x d : A) l : l <> [] -> List.last (x :: l) d = List.last l d.
Proof. by destruct l. Qed.

Lemma last_append {A} (l1 l2 : list A) d :
  l2 <> [] -> List.last (l1 ++ l2) d = List.last l2 d.
Proof.
  intros H. induction l1 as [|x l1 IH]; [done|]. simpl app.
  rewrite last_cons; [done|]. by destruct l1, l2.
Qed.

(** The piece after the last separator holds no separator. *)
Lemma split_from_last sep skip s :
  split_from sep 0 (List.last (split_from sep skip s) []) =
  [List.last (split_from sep skip s) []].
Proof.
  revert skip. induction s as [|c r IH]; intros skip; [by simpl|]. simpl split_from.
  destruct skip as [|k]; [|apply IH].
  destruct (startsWith sep (c :: r)) eqn:E.
  - rewrite last_cons by apply split_from_nonempty. apply IH.
  - destruct (split_from sep 0 r) as [|q [|q' qs]] eqn:Er.
    + by apply split_from_nonempty in Er.
    + pose proof (split_from_single _ _ _ Er) as ->. simpl. by rewrite E, Er.
    + specialize (IH 0). rewrite Er in IH. exact IH.
Qed.

(** Splitting a text that arrives in two parts: the pieces completed by
    the first part, then the split of what the first part left followed by
    the second part. *)
Lemma split_from_app sep skip s t :
  skip <= length s ->
  split_from sep skip (s ++ t) =
  removelast (split_from sep skip s) ++
  split_from sep 0 (List.last (split_from sep skip s) [] ++ t).
Proof.
  revert skip. induction s as [|c r IH]; intros skip Hskip.
  - simpl in Hskip. by replace skip with 0 by lia.
  - simpl app. simpl split_from at 1 2 4.
    destruct skip as [|k]; [|apply IH; simpl in Hskip; lia].
    destruct (startsWith sep (c :: r)) eqn:E.
    + pose proof (startsWith_length _ _ E) as Hlen. simpl in Hlen.
      change (c :: r ++ t) with ((c :: r) ++ t).
      rewrite (startsWith_app _ _ t E).
      rewrite removelast_cons, last_cons by apply split_from_nonempty.
      simpl. f_equal. apply IH. lia.
    + destruct (decide (length sep <= length (c :: r))) as [Hlong|Hshort].
      * change (c :: r ++ t) with ((c :: r) ++ t).
        rewrite startsWith_app_long, E by done.
        rewrite (IH 0) by lia.
        destruct (split_from sep 0 r) as [|q [|q' qs]] eqn:Er.
        -- by apply split_from_nonempty in Er.
        -- apply split_from_single in Er as ->. simpl.
           change (c :: r ++ t) with ((c :: r) ++ t).
           by rewrite startsWith_app_long, E.
        -- done.
      * assert (Hs : split_from sep 0 (c :: r) = [c :: r])
          by (apply split_from_short; lia).
        simpl in Hs. rewrite E in Hs. rewrite Hs. done.
Qed.

Lemma split_blank s : split BrainClient.blank_line s = split_from BrainClient.blank_line 0 s.
Proof. done. Qed.

End SplitFacts.

(** ** Properties of the pull stream reader *)

Module StreamFacts.
Import BrainClient SplitFacts.

Section WithRuntime.
Context {R : Runtime}.

Lemma last_push {A} (x d : A) l : List.last (x :: l) d = List.last l x.
Proof.
  revert x d. induction l as [|y l IH]; intros x d; [done|].
  by rewrite last_cons, !IH.
Qed.

Lemma last_chain {A} (l1 l2 : list A) d :
  List.last (l1 ++ l2) d = List.last l2 (List.last l1 d).
Proof.
  revert d. induction l1 as [|x l1 IH]; intros d; [done|].
  simpl app. by rewrite !last_push, IH.
Qed.

Lemma on_block_decoded sink st b :
  on_block sink st b =
  match decoded b with
  | None => (st, [])
  | Some data =>
      (status_of data,
       if sink then match progress_of b with Some e => [e] | None => [] end else [])
  end.
Proof.
  unfold on_block, progress_of, decoded.
  destruct (startsWith (js "data: ") (trim b)); simpl; [|done].
  destruct (JSON_parse (slice_from 6 (trim b))) as [data|]; simpl; [|done].
  destruct data; simpl; try done; unfold status_of; simpl;
    try (by destruct sink).
  destruct (own_property (js "pct") props); by destruct sink.
Qed.

Lemma on_blocks_decoded sink st bs :
  on_blocks sink st bs =
  (List.last (map status_of (omap decoded bs)) st,
   if sink then omap progress_of bs else []).
Proof.
  revert st. induction bs as [|b bs IH]; intros st; simpl.
  - by destruct sink.
  - rewrite on_block_decoded.
    assert (Hp : decoded b = None -> progress_of b = None)
      by (unfold progress_of; by intros ->).
    destruct (decoded b) as [data|] eqn:E.
    + rewrite IH. simpl map. rewrite last_push.
      destruct sink; [|done]. by destruct (progress_of b).
    + rewrite IH, Hp by done. by destruct sink.
Qed.

(** Reading chunk by chunk is reading the whole text: the units
    completed so far have been processed in order, and the buffer holds
    what follows the last blank line. *)
Lemma on_chunks_whole sink st b chunks :
  split_from blank_line 0 b = [b] ->
  on_chunks sink {| lastStatus := st; buffer := b |} chunks =
  ({| lastStatus :=
        List.last (map status_of (omap decoded (units (b ++ concat chunks)))) st;
      buffer := List.last (split blank_line (b ++ concat chunks)) [] |},
   if sink then omap progress_of (units (b ++ concat chunks)) else []).
Proof.
  revert st b. induction chunks as [|ch rest IH]; intros st b Hb.
  - simpl. unfold units. rewrite app_nil_r, split_blank, Hb. simpl. by destruct sink.
  - simpl on_chunks. unfold on_data. simpl buffer. simpl lastStatus.
    rewrite on_blocks_decoded.
    rewrite IH by (rewrite split_blank; apply split_from_last).
    simpl concat. unfold units. rewrite (app_assoc b ch), !split_blank.
    rewrite (split_from_app _ 0 (b ++ ch) (concat rest)) by lia.
    set (done_ := removelast (split_from blank_line 0 (b ++ ch))).
    set (left_ := List.last (split_from blank_line 0 (b ++ ch)) []).
    pose proof (split_from_nonempty blank_line 0 (left_ ++ concat rest)) as Hne.
    rewrite removelast_app, last_append by done.
    rewrite omap_app, map_app, last_chain. f_equal.
    destruct sink; [|done]. by rewrite omap_app.
Qed.

Lemma on_chunks_start sink chunks :
  on_chunks sink reader_start chunks =
  ({| lastStatus := last_known_status (concat chunks);
      buffer := List.last (split blank_line (concat chunks)) [] |},
   if sink then progress_events (concat chunks) else []).
Proof. unfold reader_start. by rewrite on_chunks_whole. Qed.

(** C4. When the pull stream ends, the outcome is read off the last
    known status of the decoded units alone: [done] or [success] gives
    [{status: "ok", model}], [error] gives
    [{status: "error", message: "Pull failed"}], and any other value,
    also when no unit was decoded, gives [{status: "ok", model}]. *)
Theorem pull_outcome_from_last_status :
  forall (c : client) (m : jsstring) (sink : bool) (chunks : list jsstring) (u : URL),
    URL_new (_baseUrl c ++ js "/models/pull") = Some u ->
    (last_known_status (concat chunks) = VStr (js "done") \/
     last_known_status (concat chunks) = VStr (js "success") ->
       fst (pullModel c m sink (PullEnded chunks)) =
       Resolved {| status := js "ok"; model := Some m; message := None |}) /\
    (last_known_status (concat chunks) = VStr (js "error") ->
       fst (pullModel c m sink (PullEnded chunks)) =
       Resolved {| status := js "error"; model := None;
                   message := Some (js "Pull failed") |}) /\
    (last_known_status (concat chunks) <> VStr (js "error") ->
       fst (pullModel c m sink (PullEnded chunks)) =
       Resolved {| status := js "ok"; model := Some m; message := None |}) /\
    (omap decoded (units (concat chunks)) = [] ->
       fst (pullModel c m sink (PullEnded chunks)) =
       Resolved {| status := js "ok"; model := Some m; message := None |}).
Proof.
  intros c m sink chunks u Hu.
  assert (Hend : fst (pullModel c m sink (PullEnded chunks)) =
                 Resolved (on_pull_end m (last_known_status (concat chunks)))).
  { unfold pullModel. rewrite Hu, on_chunks_start. done. }
  rewrite Hend.
  assert (Hother : last_known_status (concat chunks) <> VStr (js "error") ->
            Resolved (on_pull_end m (last_known_status (concat chunks))) =
            Resolved {| status := js "ok"; model := Some m; message := None |}).
  { intros Hne. unfold on_pull_end.
    destruct (is_string (js "done") _ || is_string (js "success") _); [done|].
    destruct (last_known_status (concat chunks)) as [| | | |t| |]; try done.
    unfold is_string, jsstring_eqb. case_bool_decide; [congruence | done]. }
  repeat split.
  - intros [-> | ->]; done.
  - intros ->. done.
  - exact Hother.
  - intros Hnone. apply Hother. unfold last_known_status. by rewrite Hnone.
Qed.

(** C7. However the pull stream is cut into chunks, the reader ends with
    the text after the last blank line in its buffer and has processed
    the units before it as if the text had come in one piece: the sink is
    called once, in order, for each unit that, trimmed, begins with
    [data: ] and decodes to a value with a numeric [pct], with that
    number and the unit's status; other units and decoding failures are
    passed over. Without a sink nothing is called. For the stream of the
    example the sink gets the single call [(10, "running")]. *)
Theorem pull_progress_in_arrival_order :
  forall (chunks : list jsstring),
    on_chunks true reader_start chunks =
      ({| lastStatus := last_known_status (concat chunks);
          buffer := List.last (split blank_line (concat chunks)) [] |},
       progress_events (concat chunks)) /\
    snd (on_chunks false reader_start chunks) = [] /\
    (forall c m u, URL_new (_baseUrl c ++ js "/models/pull") = Some u ->
       snd (pullModel c m true (PullEnded chunks)) = progress_events (concat chunks)) /\
    (JSON_parse example_payload1 = Some example_data1 ->
     JSON_parse example_payload2 = Some example_data2 ->
     concat chunks = example_stream ->
       snd (on_chunks true reader_start chunks) =
       [(VNum 10%float, VStr (js "running"))]).
Proof.
  intros chunks. rewrite !on_chunks_start. repeat split.
  - intros c m u Hu. unfold pullModel. by rewrite Hu, on_chunks_start.
  - intros H1 H2 ->. simpl snd. unfold progress_events.
    change (units example_stream)
      with [js "data: " ++ example_payload1; js "data: " ++ example_payload2].
    assert (Hd1 : decoded (js "data: " ++ example_payload1) = Some example_data1).
    { unfold decoded.
      change (trim (js "data: " ++ example_payload1))
        with (js "data: " ++ example_payload1).
      change (slice_from 6 (js "data: " ++ example_payload1)) with example_payload1.
      by rewrite H1. }
    assert (Hd2 : decoded (js "data: " ++ example_payload2) = Some example_data2).
    { unfold decoded.
      change (trim (js "data: " ++ example_payload2))
        with (js "data: " ++ example_payload2).
      change (slice_from 6 (js "data: " ++ example_payload2)) with example_payload2.
      by rewrite H2. }
    assert (Hp1 : progress_of (js "data: " ++ example_payload1) =
                  Some (VNum 10%float, VStr (js "running")))
      by (unfold progress_of; by rewrite Hd1).
    assert (Hp2 : progress_of (js "data: " ++ example_payload2) = None)
      by (unfold progress_of; by rewrite Hd2).
    cbn [omap list_omap]. by rewrite Hp1, Hp2.
Qed.

End WithRuntime.

Import Host.

(** The example stream on the small host, cut in the middle of its first
    unit and again between the two line feeds that end it. *)
Example example_stream_in_three_chunks :
  pullModel (constructor (js "http://127.0.0.1:8420/")) (js "phi3") true
    (PullEnded [firstn 20 example_stream;
                firstn 16 (skipn 20 example_stream);
                skipn 36 example_stream]) =
  (Resolved {| status := js "ok"; model := Some (js "phi3"); message := None |},
   [(VNum 10%float, VStr (js "running"))]).
Proof. vm_compute. reflexivity. Qed.

(** A last unit that no blank line ends is never read: the outcome comes
    from the unit before it. *)
Example unfinished_unit_is_not_read :
  on_chunks true reader_start failing_chunks =
  ({| lastStatus := VStr (js "error");
      buffer := js "data: {" ++ quoted "status" ++ js ":" ++ quoted "done" ++ js "}" |},
   []).
Proof. vm_compute. reflexivity. Qed.

Lemma pull_outcome_from_last_status_witness :
  URL_new 
    (_baseUrl (constructor (js "http://127.0.0.1:8420")) ++ js "/models/pull") =
    Some {| protocol := js "http:"; hostname := js "127.0.0.1"; port := Some 8420%N;
            pathname := js "/models/pull" |} /\
  fst (pullModel (constructor (js "http://127.0.0.1:8420"))
         (js "phi3") true (PullEnded failing_chunks)) =
  Resolved {| status := js "error"; model := None; message := Some (js "Pull failed") |}.
Proof.
  split; [vm_compute; reflexivity|].
  apply (pull_outcome_from_last_status 
           (constructor (js "http://127.0.0.1:8420")) (js "phi3") true failing_chunks
           {| protocol := js "http:"; hostname := js "127.0.0.1"; port := Some 8420%N;
              pathname := js "/models/pull" |});
    vm_compute; reflexivity.
Defined.

End StreamFacts.

(** ** Properties of the health check *)

Module HealthFacts.
Import BrainClient.

Section WithRuntime.
Context {R : Runtime}.
Variable net : nat -> request -> option exchange.
Variable c : client.

(** Among the first [n] values from [a], a bool function is false on
    all, or true on a first one. *)
Lemma first_true (f : nat -> bool) a n :
  (forall j, a <= j < a + n -> f j = false) \/
  (exists k, a <= k < a + n /\ f k = true /\ forall j, a <= j < k -> f j = false).
Proof.
  revert a. induction n as [|n IH]; intros a; [left; lia|].
  destruct (f a) eqn:Ha.
  - right. exists a. split; [lia|]. split; [done | lia].
  - destruct (IH (S a)) as [Hall | (k & Hk & Hfk & Hbefore)].
    + left. intros j Hj. destruct (decide (j = a)) as [->|]; [done|]. apply Hall. lia.
    + right. exists k. split; [lia|]. split; [done|].
      intros j Hj. destruct (decide (j = a)) as [->|]; [done|]. apply Hbefore. lia.
Qed.

Lemma scanned_attempts_step base a n :
  scanned_attempts base a (S n) =
  Scanned (configured_port base + N.of_nat a)
          (tryUrl_of base (configured_port base + N.of_nat a))
  :: scanned_attempts base (S a) n.
Proof. done. Qed.

(** A probe declines when it settled and did not report ok; otherwise it
    reported ok or stays pending. *)
Lemma declines_spec r :
  declines r = true <-> pending r = false /\ reports_ok r = false.
Proof.
  unfold declines. destruct (pending r), (reports_ok r); simpl; split; (done || by intros []).
Qed.

Lemma not_declines r :
  declines r = false -> reports_ok r = true \/ pending r = true.
Proof.
  unfold declines. destruct (pending r), (reports_ok r); simpl; (done || by eauto).
Qed.

Lemma reports_ok_settled r : reports_ok r = true -> pending r = false.
Proof. by destruct r as [[res|e]|]. Qed.

(** One turn of the loop for a port above the configured one. *)
Lemma discover_turn base a rest tried :
  1 <= a -> length tried = a ->
  discover net c base (configured_port base)
           ((configured_port base + N.of_nat a)%N :: rest) tried =
  if reports_ok (scanned_probe net c base a)
  then {| outcome := Some (Resolved true);
          after := {| _baseUrl := tryUrl_of base (configured_port base + N.of_nat a);
                      _vibeRequest := _vibeRequest c |};
          attempts := tried ++ scanned_attempts base a 1 |}
  else if pending (scanned_probe net c base a)
  then {| outcome := None; after := c; attempts := tried ++ scanned_attempts base a 1 |}
  else discover net c base (configured_port base) rest
                (tried ++ scanned_attempts base a 1).
Proof.
  intros Ha Hlen. simpl discover.
  assert ((configured_port base + N.of_nat a =? configured_port base)%N = false) as ->
    by (apply N.eqb_neq; lia).
  rewrite Hlen. unfold scanned_probe, reports_ok, pending.
  destruct (_fire (net a) c GET (js "/health") HEALTH_TIMEOUT_MS _) as [[res|e]|];
    [|done..].
  destruct (get res (js "status")) as [st|]; [|done].
  by destruct (is_string (js "ok") st).
Qed.

(** The turn of the loop for the configured port itself. *)
Lemma discover_skip base rest tried :
  discover net c base (configured_port base) (configured_port base :: rest) tried =
  discover net c base (configured_port base) rest tried.
Proof. simpl discover. by rewrite N.eqb_refl. Qed.

Lemma discover_miss base n a tried :
  1 <= a -> length tried = a ->
  (forall j, a <= j < a + n -> declines (scanned_probe net c base j) = true) ->
  discover net c base (configured_port base)
           (map (fun i => (configured_port base + N.of_nat i)%N) (seq a n)) tried =
  {| outcome := Some (Resolved false); after := c;
     attempts := tried ++ scanned_attempts base a n |}.
Proof.
  revert a tried. induction n as [|n IH]; intros a tried Ha Hlen Hall.
  - simpl. by rewrite app_nil_r.
  - simpl seq. simpl map. rewrite discover_turn by done.
    destruct (proj1 (declines_spec _) (Hall a ltac:(lia))) as [-> ->].
    rewrite IH.
    + by rewrite scanned_attempts_step, <- app_assoc.
    + lia.
    + rewrite length_app. simpl. lia.
    + intros j Hj. apply Hall. lia.
Qed.

(** The loop ends at the first probe that does not decline: with true and
    the new endpoint when it reported ok, and never when it stays
    pending. *)
Lemma discover_stop base n a tried k :
  1 <= a -> length tried = a ->
  a <= k < a + n ->
  (forall j, a <= j < k -> declines (scanned_probe net c base j) = true) ->
  declines (scanned_probe net c base k) = false ->
  discover net c base (configured_port base)
           (map (fun i => (configured_port base + N.of_nat i)%N) (seq a n)) tried =
  if reports_ok (scanned_probe net c base k)
  then {| outcome := Some (Resolved true);
          after := {| _baseUrl := tryUrl_of base (configured_port base + N.of_nat k);
                      _vibeRequest := _vibeRequest c |};
          attempts := tried ++ scanned_attempts base a (S k - a) |}
  else {| outcome := None; after := c;
          attempts := tried ++ scanned_attempts base a (S k - a) |}.
Proof.
  revert a tried. induction n as [|n IH]; intros a tried Ha Hlen Hk Hbefore Hstop; [lia|].
  simpl seq. simpl map. rewrite discover_turn by done.
  destruct (decide (k = a)) as [->|Hne].
  - replace (S a - a) with 1 by lia.
    destruct (not_declines _ Hstop) as [Hok | Hpend].
    + by rewrite Hok.
    + rewrite Hpend. by destruct (reports_ok (scanned_probe net c base a)).
  - destruct (proj1 (declines_spec _) (Hbefore a ltac:(lia))) as [-> ->].
    rewrite IH.
    + replace (S k - a) with (S (S k - S a)) by lia.
      by rewrite scanned_attempts_step, <- !app_assoc.
    + lia.
    + rewrite length_app. simpl. lia.
    + lia.
    + intros j Hj. apply Hbefore. lia.
    + done.
Qed.

Lemma healthCheck_threw :
  threw (configured_probe net c) = true ->
  healthCheck net c = discovery net c [Configured (_baseUrl c)].
Proof.
  unfold healthCheck, threw, configured_probe.
  destruct (_fire (net 0) c GET (js "/health") HEALTH_TIMEOUT_MS None) as [[res|e]|];
    [|done..].
  by destruct (get res (js "status")).
Qed.

Lemma healthCheck_answered :
  threw (configured_probe net c) = false ->
  pending (configured_probe net c) = false ->
  healthCheck net c =
  {| outcome := Some (Resolved (reports_ok (configured_probe net c))); after := c;
     attempts := [Configured (_baseUrl c)] |}.
Proof.
  unfold healthCheck, threw, pending, reports_ok, configured_probe.
  destruct (_fire (net 0) c GET (js "/health") HEALTH_TIMEOUT_MS None) as [[res|e]|];
    [|done..].
  by destruct (get res (js "status")).
Qed.

Lemma healthCheck_pending :
  pending (configured_probe net c) = true ->
  healthCheck net c =
  {| outcome := None; after := c; attempts := [Configured (_baseUrl c)] |}.
Proof.
  unfold healthCheck, pending, configured_probe.
  by destruct (_fire (net 0) c GET (js "/health") HEALTH_TIMEOUT_MS None) as [[res|e]|].
Qed.

Lemma pending_not_threw r : pending r = true -> threw r = false.
Proof. by destruct r. Qed.

(** The loop passes over the configured port and goes through the nine
    ports above it. *)
Lemma discovery_loop base tried :
  URL_new (_baseUrl c) = Some base ->
  discovery net c tried =
  discover net c base (configured_port base)
           (map (fun i => (configured_port base + N.of_nat i)%N) (seq 1 9)) tried.
Proof.
  intros Hbase. unfold discovery. rewrite Hbase. fold (configured_port base).
  unfold loop_ports. change (seq 0 10) with (0 :: seq 1 9).
  rewrite map_cons. change (N.of_nat 0) with 0%N. rewrite N.add_0_r.
  apply discover_skip.
Qed.

(** What a health check whose first probe threw comes to: false after nine
    probes that declined, true at the first probe that reported ok, or
    nothing at the first probe that stays pending. *)
Lemma healthCheck_scan base :
  URL_new (_baseUrl c) = Some base ->
  threw (configured_probe net c) = true ->
  ((forall j, 1 <= j <= 9 -> declines (scanned_probe net c base j) = true) /\
   healthCheck net c =
   {| outcome := Some (Resolved false); after := c;
      attempts := Configured (_baseUrl c) :: scanned_attempts base 1 9 |}) \/
  (exists k, 1 <= k <= 9 /\
     reports_ok (scanned_probe net c base k) = true /\
     (forall j, 1 <= j < k -> declines (scanned_probe net c base j) = true) /\
     healthCheck net c =
     {| outcome := Some (Resolved true);
        after := {| _baseUrl := tryUrl_of base (configured_port base + N.of_nat k);
                    _vibeRequest := _vibeRequest c |};
        attempts := Configured (_baseUrl c) :: scanned_attempts base 1 k |}) \/
  (exists k, 1 <= k <= 9 /\
     pending (scanned_probe net c base k) = true /\
     (forall j, 1 <= j < k -> declines (scanned_probe net c base j) = true) /\
     healthCheck net c =
     {| outcome := None; after := c;
        attempts := Configured (_baseUrl c) :: scanned_attempts base 1 k |}).
Proof.
  intros Hbase Hthrew. rewrite healthCheck_threw, (discovery_loop base) by done.
  destruct (first_true (fun j => negb (declines (scanned_probe net c base j))) 1 9)
    as [Hall | (k & Hk & Hstop & Hbefore)].
  - left.
    assert (Hdecl : forall j, 1 <= j <= 9 -> declines (scanned_probe net c base j) = true).
    { intros j Hj. apply negb_false_iff, Hall. lia. }
    split; [done|].
    rewrite discover_miss; [done | lia | done |]. intros j Hj. apply Hdecl. lia.
  - right. apply negb_true_iff in Hstop.
    assert (Hdecl : forall j, 1 <= j < k -> declines (scanned_probe net c base j) = true).
    { intros j Hj. apply negb_false_iff, Hbefore. lia. }
    rewrite (discover_stop base 9 1 _ k); [|lia|done|lia|done|done].
    replace (S k - 1) with k by lia.
    destruct (not_declines _ Hstop) as [Hok | Hpend].
    + left. exists k. rewrite Hok. split; [lia|]. by repeat split.
    + right. exists k.
      assert (reports_ok (scanned_probe net c base k) = false) as ->.
      { destruct (reports_ok (scanned_probe net c base k)) eqn:E; [|done].
        apply reports_ok_settled in E. congruence. }
      split; [lia|]. by repeat split.
Qed.

(** Whatever the loop goes through, it leaves the client as it was,
    unless its last probe reported ok and gave the new endpoint. *)
Lemma discover_after base p ps tried :
  after (discover net c base p ps tried) = c /\
    outcome (discover net c base p ps tried) <> Some (Resolved true) \/
  (outcome (discover net c base p ps tried) = Some (Resolved true) /\
   exists q before,
     attempts (discover net c base p ps tried) =
       before ++ [Scanned q (tryUrl_of base q)] /\
     after (discover net c base p ps tried) =
       {| _baseUrl := tryUrl_of base q; _vibeRequest := _vibeRequest c |}).
Proof.
  revert tried. induction ps as [|q ps IH]; intros tried; simpl discover.
  - by left.
  - destruct (q =? p)%N; [apply IH|].
    destruct (_fire _ c GET (js "/health") HEALTH_TIMEOUT_MS _) as [[res|e]|];
      [|apply IH|by left].
    destruct (get res (js "status")) as [st|]; [|apply IH].
    destruct (is_string (js "ok") st); [|apply IH].
    right. split; [done|]. by exists q, tried.
Qed.






(** C3, as the client does it. With an endpoint that parses, the scan is
    entered exactly when the first probe ends in an exception: its
    exchange failed, or it resolved to a value without properties. A
    reply that decodes and does not report ok ends the health check with
    false and no port is scanned. When the scan is entered and every
    probe of it declines, the health check resolves to false. A first
    probe that stays pending leaves the health check pending, with no
    port scanned. *)
Theorem discovery_only_after_an_exception :
  forall (base : URL),
    URL_new (_baseUrl c) = Some base ->
    ((exists p u, In (Scanned p u) (attempts (healthCheck net c))) <->
     threw (configured_probe net c) = true) /\
    (threw (configured_probe net c) = false ->
     pending (configured_probe net c) = false ->
       healthCheck net c =
       {| outcome := Some (Resolved (reports_ok (configured_probe net c))); after := c;
          attempts := [Configured (_baseUrl c)] |}) /\
    (threw (configured_probe net c) = true ->
     (forall j, 1 <= j <= 9 -> declines (scanned_probe net c base j) = true) ->
       outcome (healthCheck net c) = Some (Resolved false)) /\
    (pending (configured_probe net c) = true ->
       healthCheck net c =
       {| outcome := None; after := c; attempts := [Configured (_baseUrl c)] |}).
Proof.
  intros base Hbase. split; [|split; [|split]].
  - split.
    + intros (p & u & Hin). destruct (threw (configured_probe net c)) eqn:E; [done|].
      destruct (pending (configured_probe net c)) eqn:P.
      * rewrite healthCheck_pending in Hin by done. simpl in Hin. by destruct Hin as [|[]].
      * rewrite healthCheck_answered in Hin by done. simpl in Hin.
        by destruct Hin as [|[]].
    + intros Hthrew.
      exists (configured_port base + N.of_nat 1)%N,
             (tryUrl_of base (configured_port base + N.of_nat 1)).
      destruct (healthCheck_scan base Hbase Hthrew)
        as [[_ ->] | [(k & Hk & _ & _ & ->) | (k & Hk & _ & _ & ->)]]; simpl attempts.
      * right. by left.
      * right. destruct k as [|k]; [lia|]. rewrite scanned_attempts_step. by left.
      * right. destruct k as [|k]; [lia|]. rewrite scanned_attempts_step. by left.
  - apply healthCheck_answered.
  - intros Hthrew Hall.
    destruct (healthCheck_scan base Hbase Hthrew)
      as [[_ ->] | [(k & Hk & Hok & _ & _) | (k & Hk & Hpend & _ & _)]]; [done| |].
    + destruct (proj1 (declines_spec _) (Hall k Hk)) as [_ Hno]. congruence.
    + destruct (proj1 (declines_spec _) (Hall k Hk)) as [Hno _]. congruence.
  - apply healthCheck_pending.
Qed.


(** An endpoint that does not parse makes the health check reject. *)
Lemma healthCheck_unparsed_endpoint :
  URL_new (_baseUrl c) = None ->
  threw (configured_probe net c) = true ->
  outcome (healthCheck net c) = Some (Rejected TypeError).
Proof.
  intros Hbase Hthrew. rewrite healthCheck_threw by done.
  unfold discovery. by rewrite Hbase.
Qed.

(** C10. A health check that resolves to false leaves the client's
    endpoint as it was: the endpoint changes only when a probe of the
    scan reported ok, to the address of that probe, and the health check
    then resolves to true. The tracked slot is never touched. *)
Theorem failed_check_keeps_endpoint :
  (outcome (healthCheck net c) = Some (Resolved false) -> after (healthCheck net c) = c) /\
  (after (healthCheck net c) = c \/
   (outcome (healthCheck net c) = Some (Resolved true) /\
    exists q u before,
      attempts (healthCheck net c) = before ++ [Scanned q u] /\
      after (healthCheck net c) = {| _baseUrl := u; _vibeRequest := _vibeRequest c |})) /\
  _vibeRequest (after (healthCheck net c)) = _vibeRequest c.
Proof.
  assert (Hcases :
    after (healthCheck net c) = c \/
    (outcome (healthCheck net c) = Some (Resolved true) /\
     exists q u before,
       attempts (healthCheck net c) = before ++ [Scanned q u] /\
       after (healthCheck net c) = {| _baseUrl := u; _vibeRequest := _vibeRequest c |})).
  { destruct (threw (configured_probe net c)) eqn:Hthrew.
    - rewrite healthCheck_threw by done. unfold discovery.
      destruct (URL_new (_baseUrl c)) as [base|]; [|by left].
      destruct (discover_after base (default 8420%N (port base))
                  (loop_ports (default 8420%N (port base))) [Configured (_baseUrl c)])
        as [[? _] | (? & q & before & ? & ?)]; [by left|].
      right. split; [done|]. by exists q, (tryUrl_of base q), before.
    - destruct (pending (configured_probe net c)) eqn:Hpend.
      + rewrite healthCheck_pending by done. by left.
      + rewrite healthCheck_answered by done. by left. }
  split; [|split; [exact Hcases|]].
  - intros Hfalse. destruct Hcases as [|[Htrue _]]; [done|]. congruence.
  - destruct Hcases as [->|(_ & q & u & before & _ & ->)]; done.
Qed.

End WithRuntime.

Import Host.



(** C3, as it is worded, fails: the service on the configured port answers
    with a status that is not ok; the probe did not report ok, no port is
    scanned (the Brain on 8421 is not found) and the result is false. *)
Lemma not_ok_reply_starts_no_scan :
  reports_ok (configured_probe brain_starting (constructor (js "http://127.0.0.1:8420")))
    = false /\
  healthCheck brain_starting (constructor (js "http://127.0.0.1:8420")) =
  {| outcome := Some (Resolved false);
     after := constructor (js "http://127.0.0.1:8420");
     attempts := [Configured (js "http://127.0.0.1:8420")] |}.
Proof. split; vm_compute; reflexivity. Qed.

Lemma discovery_only_after_an_exception_witness :
  URL_new (_baseUrl (constructor (js "http://127.0.0.1:8420"))) = Some local_8420 /\
  threw (configured_probe brain_starting (constructor (js "http://127.0.0.1:8420")))
    = false /\
  healthCheck brain_starting (constructor (js "http://127.0.0.1:8420")) =
  {| outcome :=
       Some (Resolved (reports_ok (configured_probe brain_starting
                                     (constructor (js "http://127.0.0.1:8420")))));
     after := constructor (js "http://127.0.0.1:8420");
     attempts := [Configured (_baseUrl (constructor (js "http://127.0.0.1:8420")))] |}.
Proof.
  split; [vm_compute; reflexivity|]. split; [vm_compute; reflexivity|].
  apply (@discovery_only_after_an_exception small brain_starting
           (constructor (js "http://127.0.0.1:8420")) local_8420
           ltac:(vm_compute; reflexivity)).
  - vm_compute; reflexivity.
  - vm_compute; reflexivity.
Defined.



End HealthFacts.

(** ** Properties of the reply handler *)

Module ResponseFacts.
Import BrainClient.

Section WithRuntime.
Context {R : Runtime}.

Lemma on_end_remote statusCode data :
  (400 <= default 0 statusCode)%N ->
  on_end statusCode data =
  option_map (fun text => Rejected (remote_error (default 0%N statusCode) text))
    (to_string
       match JSON_parse data with
       | Some p =>
           match get p (js "detail") with
           | Some d => if truthy d then d else VStr (slice_to 300 data)
           | None => VStr (slice_to 300 data)
           end
       | None => VStr (slice_to 300 data)
       end).
Proof.
  intros Hge. unfold on_end, remote_error.
  apply N.leb_le in Hge as ->. by destruct (to_string _).
Qed.

(** C6, as the client does it. A reply with a status of 400 or more is
    rejected with the message [Brain HTTP <status>: <detail>], where the
    detail is the body's [detail] field when the body decodes to a value
    with a non-empty [detail] string, and the first 300 code units of the
    body when the body does not decode, decodes to a value without
    properties, or has no [detail] or a false one (the empty string
    among them). A reply below 400 whose body does not decode is rejected
    with [Invalid JSON: ] followed by the first 200 code units of the
    body; one that decodes resolves to the decoded value. *)
Theorem reply_classification :
  forall (statusCode : option N) (data : jsstring),
    ((400 <= default 0 statusCode)%N ->
       (forall p s, JSON_parse data = Some p -> get p (js "detail") = Some (VStr s) ->
          s <> [] ->
          on_end statusCode data =
          Some (Rejected (remote_error (default 0%N statusCode) s))) /\
       (JSON_parse data = None ->
          on_end statusCode data =
          Some (Rejected (remote_error (default 0%N statusCode) (slice_to 300 data)))) /\
       (forall p, JSON_parse data = Some p -> get p (js "detail") = None ->
          on_end statusCode data =
          Some (Rejected (remote_error (default 0%N statusCode) (slice_to 300 data)))) /\
       (forall p d, JSON_parse data = Some p -> get p (js "detail") = Some d ->
          truthy d = false ->
          on_end statusCode data =
          Some (Rejected (remote_error (default 0%N statusCode) (slice_to 300 data))))) /\
    ((default 0 statusCode < 400)%N ->
       (JSON_parse data = None ->
          on_end statusCode data = Some (Rejected (invalid_response data))) /\
       (forall v, JSON_parse data = Some v -> on_end statusCode data = Some (Resolved v))).
Proof.
  intros statusCode data. split.
  - intros Hge. rewrite on_end_remote by done. repeat split.
    + intros p s -> -> Hs. simpl. by case_bool_decide.
    + by intros ->.
    + by intros p -> ->.
    + by intros p d -> -> ->.
  - intros Hlt. unfold on_end, invalid_response.
    apply N.leb_gt in Hlt as ->. split; [by intros ->|]. by intros v ->.
Qed.

End WithRuntime.

Import Host.

(** The two replies of the design document's example. *)
Example not_found_reply :
  on_end (Some 404%N) not_found_body =
  Some (Rejected (Error (js "Brain HTTP 404: not found"))).
Proof. vm_compute. reflexivity. Qed.

Example server_error_reply :
  on_end (Some 500%N) (js "Internal Server Error") =
  Some (Rejected (Error (js "Brain HTTP 500: Internal Server Error"))).
Proof. vm_compute. reflexivity. Qed.

(** C6, as it is worded, fails: a body that is JSON with an empty [detail]
    string is reported by its raw text, not by its detail. *)
Lemma empty_detail_reports_the_body :
  JSON_parse empty_detail_body = Some (VObj [(js "detail", VStr [])]) /\
  documented_detail empty_detail_body = [] /\
  on_end (Some 400%N) empty_detail_body =
    Some (Rejected (remote_error 400 empty_detail_body)) /\
  on_end (Some 400%N) empty_detail_body <>
    Some (Rejected (remote_error 400 (documented_detail empty_detail_body))).
Proof.
  split; [vm_compute; reflexivity|]. split; [vm_compute; reflexivity|].
  split; [vm_compute; reflexivity|]. vm_compute. discriminate.
Qed.

End ResponseFacts.

(** ** Properties of the tracked slot *)

Module SlotFacts.
Import BrainClient.

Section WithRuntime.
Context {R : Runtime}.

Lemma makeRequest_heap w m path timeoutMs baseOverride req w' :
  _makeRequest w m path timeoutMs baseOverride = Some (req, w') ->
  req = next w /\ next w' = S (next w) /\ self w' = self w /\
  exists r, heap w' = <[next w := {| issued := r; destroyed := false; promise := None |}]>
                        (heap w).
Proof.
  unfold _makeRequest. destruct (options (self w) m path timeoutMs baseOverride) as [r|];
    [|done].
  intros [= <- <-]. simpl. by eauto.
Qed.

Lemma step_sound w w' : sound w -> step w w' -> sound w'.
Proof.
  intros [Hbelow Hslot] Hstep. destruct Hstep as [w m path|w m path t b|w req x i Hi|w].
  - unfold _fetchTracked.
    destruct (_makeRequest w m path TIMEOUT_MS None) as [[req w']|] eqn:E; [|done].
    apply makeRequest_heap in E as (-> & Hnext & Hself & r & Hheap). simpl.
    split; simpl.
    + intros req i. rewrite Hheap, Hnext. intros [[<- _]|[_ H]]%lookup_insert_Some; [lia|].
      apply Hbelow in H. lia.
    + intros req [= <-]. rewrite Hheap, lookup_insert_eq. by eauto.
  - unfold fire_start.
    destruct (_makeRequest w m path t b) as [[req w']|] eqn:E; [|done].
    apply makeRequest_heap in E as (-> & Hnext & Hself & r & Hheap). simpl.
    split.
    + intros req i. rewrite Hheap, Hnext. intros [[<- _]|[_ H]]%lookup_insert_Some; [lia|].
      apply Hbelow in H. lia.
    + intros req. rewrite Hself. intros Hreq.
      destruct (Hslot req Hreq) as (i & Hi & ? & ?).
      exists i. rewrite Hheap, lookup_insert_ne; [done|]. apply Hbelow in Hi. lia.
  - split; simpl.
    + intros req' i'. rewrite lookup_alter.
      case_decide as Heq; [subst req'|apply Hbelow].
      intros _. by apply (Hbelow req i).
    + intros req'. unfold release. case_bool_decide as Hcur; simpl; [done|].
      intros Hreq'. destruct (Hslot req' Hreq') as (i' & Hi' & ? & ?).
      exists i'. rewrite lookup_alter_ne; [done|]. congruence.
  - unfold abort. destruct (_vibeRequest (self w)) as [req|] eqn:E;
      [|split; [done | intros req Hreq; by rewrite E in Hreq]].
    split; simpl; [|done].
    intros req' i'. rewrite lookup_alter.
    case_decide as Heq; [subst req'|apply Hbelow].
    intros (i & Hi & _)%fmap_Some. by apply (Hbelow req i).
Qed.

Lemma reachable_sound baseUrl w : reachable baseUrl w -> sound w.
Proof.
  induction 1 as [|w w' _ IH Hstep]; [|by apply (step_sound w)].
  split; [|done]. intros req i. simpl. by rewrite lookup_empty.
Qed.




Lemma abort_slot w req :
  _vibeRequest (self w) = Some req ->
  abort w = {| self := {| _baseUrl := _baseUrl (self w); _vibeRequest := None |};
               heap := alter destroy req (heap w);
               next := next w |}.
Proof. unfold abort. by intros ->. Qed.


(** C9. [abort] with an empty slot changes nothing; with a request in
    the slot it destroys that request, empties the slot and leaves the
    endpoint and every other request as they were. *)
Theorem abort_empties_the_slot :
  forall (w : world),
    (_vibeRequest (self w) = None -> abort w = w) /\
    (forall req, _vibeRequest (self w) = Some req ->
       _vibeRequest (self (abort w)) = None /\
       _baseUrl (self (abort w)) = _baseUrl (self w) /\
       next (abort w) = next w /\
       (forall i, heap w !! req = Some i ->
          heap (abort w) !! req = Some (destroy i) /\
          destroyed (destroy i) = true /\
          promise (destroy i) = promise i) /\
       (forall other, other <> req -> heap (abort w) !! other = heap w !! other)).
Proof.
  intros w. split.
  - unfold abort. by intros ->.
  - intros req Hreq. rewrite (abort_slot _ req) by done. simpl.
    split; [done|]. split; [done|]. split; [done|]. split.
    + intros i Hi. by rewrite lookup_alter_eq, Hi.
    + intros other Hother. by rewrite lookup_alter_ne.
Qed.

End WithRuntime.

Import Host.


(** A generation request answered with status 422 and a [detail] object
    that has a [toString] property: the [end] handler releases the slot and
    throws before it rejects, so the promise stays pending. *)
Example unrendered_detail_leaves_the_promise_pending :
  throws (Ended (Some 422%N) odd_detail_body) = true /\
  _vibeRequest
    (self (completion (fst (sendVibe (new_world (js "http://127.0.0.1:8420")))) 0
             (Ended (Some 422%N) odd_detail_body))) = None /\
  promise <$>
    heap (completion (fst (sendVibe (new_world (js "http://127.0.0.1:8420")))) 0
            (Ended (Some 422%N) odd_detail_body)) !! 0 = Some None.
Proof. repeat split; vm_compute; reflexivity. Qed.

End SlotFacts.

(** ** More on the connectivity monitor *)

Module MonitorHistory.
Import Monitor Notifications.

Lemma online_after_success pre : wasOnline (run pre) = true -> In true pre.
Proof.
  induction pre as [|b pre IH] using rev_ind; [done|].
  rewrite MonitorFacts.run_snoc, in_app_iff. destruct b; [intros _; right; by left|].
  unfold step, doHealthCheck. simpl.
  destruct (wasOnline (run pre)) eqn:Hon; [|by rewrite andb_false_r].
  intros _. left. by apply IH.
Qed.

Lemma offline_history pre :
  wasOnline (run pre) = false -> ~ In true pre \/ 3 <= trailing_fails pre.
Proof.
  induction pre as [|b pre IH] using rev_ind; [intros _; left; by intros []|].
  rewrite MonitorFacts.run_snoc, MonitorFacts.trailing_fails_snoc.
  destruct b.
  - unfold step, doHealthCheck. simpl. by destruct (wasOnline (run pre)).
  - destruct (wasOnline (run pre)) eqn:Hon.
    + destruct (MonitorFacts.online_counter pre Hon) as [Hle Hfc].
      unfold step, doHealthCheck. simpl. rewrite Hon, Hfc.
      destruct (trailing_fails pre) as [|[|[|n]]]; simpl; first [discriminate | lia].
    + intros _. destruct (IH eq_refl) as [Hno | Hmany]; [left | right; lia].
      rewrite in_app_iff. intros [H | [H | []]]; [by apply Hno | discriminate].
Qed.

(** X1. The monitor's state is a function of the history alone: it is Online
    exactly when some probe succeeded and at most two failures have come
    since the last success. *)
Theorem online_iff_recent_success :
  forall (outcomes : list bool),
    wasOnline (run outcomes) = true <-> In true outcomes /\ trailing_fails outcomes <= 2.
Proof.
  intros outcomes. split.
  - intros Hon. split; [by apply online_after_success|].
    by destruct (MonitorFacts.online_counter outcomes Hon).
  - intros [Hin Hle]. destruct (wasOnline (run outcomes)) eqn:Hoff; [done|].
    destruct (offline_history outcomes Hoff); [done | lia].
Qed.

Lemma note_of_step s ok :
  snd (doHealthCheck s ok) =
  if Bool.eqb (wasOnline (step s ok)) (wasOnline s) then None
  else Some (wasOnline (step s ok)).
Proof.
  unfold step, doHealthCheck. destruct ok; simpl.
  - by destruct (wasOnline s).
  - destruct (PrimFloat.leb MAX_FAILS (failCount s + 1)); by destruct (wasOnline s).
Qed.

Lemma notes_from_alternate s outcomes :
  notes_from s outcomes =
    alternation (negb (wasOnline s)) (length (notes_from s outcomes)) /\
  wasOnline (fold_left step outcomes s) = List.last (notes_from s outcomes) (wasOnline s).
Proof.
  revert s. induction outcomes as [|ok r IH]; intros s; [done|].
  simpl notes_from. simpl fold_left. rewrite note_of_step.
  destruct (IH (step s ok)) as [IHa IHl]. rewrite IHl.
  destruct (wasOnline (step s ok)), (wasOnline s);
    cbn [Bool.eqb negb length alternation] in *;
    (split; [by rewrite <- IHa | by rewrite ?StreamFacts.last_push]).
Qed.

(** X2. The sidebar is told of every change of state and of nothing else: the
    statuses sent to [updateBrainStatus] alternate, starting with online,
    and the last one sent is the monitor's state (Offline when none was
    sent). *)
Theorem status_updates_alternate :
  forall (outcomes : list bool),
    notes outcomes = alternation true (length (notes outcomes)) /\
    wasOnline (run outcomes) = List.last (notes outcomes) false.
Proof. intros outcomes. apply (notes_from_alternate initial outcomes). Qed.

End MonitorHistory.

(** ** More on the reply handler and the constructor *)

Module ClientFacts.
Import BrainClient.

Lemma strip_slashes_start_spec s :
  exists n, s = repeat 47%N n ++ strip_slashes_start s /\
            forall r, strip_slashes_start s <> 47%N :: r.
Proof.
  induction s as [|c s IH]; simpl.
  - exists 0. by split.
  - destruct (c =? 47)%N eqn:E.
    + apply N.eqb_eq in E as ->. destruct IH as (n & Hs & Hno).
      exists (S n). split; [simpl; by rewrite <- Hs | done].
    + exists 0. split; [done|]. intros r [= -> _]. by rewrite N.eqb_refl in E.
Qed.

(** X3. The constructor removes the slashes at the end of the address, all of
    them and nothing else, and starts with an empty slot; an address
    without a final slash is kept as it is. *)
Theorem constructor_strips_final_slashes :
  forall (baseUrl : jsstring),
    (exists n, baseUrl = _baseUrl (constructor baseUrl) ++ repeat 47%N n) /\
    (forall t, _baseUrl (constructor baseUrl) <> t ++ [47%N]) /\
    _vibeRequest (constructor baseUrl) = None /\
    constructor (_baseUrl (constructor baseUrl)) = constructor baseUrl.
Proof.
  intros baseUrl. unfold constructor. simpl.
  destruct (strip_slashes_start_spec (rev baseUrl)) as (n & Hs & Hno).
  assert (Hend : forall t, rev (strip_slashes_start (rev baseUrl)) <> t ++ [47%N]).
  { intros t Ht. apply (f_equal (@rev N)) in Ht.
    rewrite rev_involutive, rev_app_distr in Ht. simpl in Ht. by apply Hno in Ht. }
  split; [|split; [exact Hend|split; [done|]]].
  - exists n. apply (f_equal (@rev N)) in Hs.
    rewrite rev_involutive, rev_app_distr, rev_repeat in Hs. exact Hs.
  - f_equal. rewrite rev_involutive.
    destruct (strip_slashes_start (rev baseUrl)) as [|c r] eqn:E; [done|].
    cbn [strip_slashes_start]. destruct (c =? 47)%N eqn:Ec; [|done].
    apply N.eqb_eq in Ec as ->. by destruct (Hno r).
Qed.

Section WithRuntime.
Context {R : Runtime}.

(** X4. A reply resolves the promise exactly when its status is below 400 and
    its body is JSON, and then to the decoded body: a status of 400 or more
    never resolves, whatever the body. *)
Theorem reply_resolves_iff :
  forall (statusCode : option N) (data : jsstring) (v : value),
    on_end statusCode data = Some (Resolved v) <->
    (default 0 statusCode < 400)%N /\ JSON_parse data = Some v.
Proof.
  intros statusCode data v. unfold on_end.
  destruct (400 <=? default 0%N statusCode)%N eqn:E.
  - apply N.leb_le in E. split; [by destruct (to_string _) | lia].
  - apply N.leb_gt in E. destruct (JSON_parse data) as [w|].
    + split; [by intros [= ->] | by intros [_ [= ->]]].
    + split; [done | by intros [_ ?]].
Qed.

(** X5. The text of a body that is not JSON is cut in the error: the message of
    an invalid-response error carries at most 200 code units of it and that
    of a remote error at most 300, and a shorter body is carried whole. *)
Theorem undecodable_body_is_truncated :
  forall (statusCode : option N) (data : jsstring),
    JSON_parse data = None ->
    exists shown,
      on_end statusCode data =
        Some (Rejected (if (400 <=? default 0 statusCode)%N
                        then remote_error (default 0%N statusCode) shown
                        else Error (js "Invalid JSON: " ++ shown))) /\
      length shown =
        Nat.min (if (400 <=? default 0 statusCode)%N then 300 else 200) (length data) /\
      (exists rest, data = shown ++ rest) /\
      (length data <= 200 -> shown = data).
Proof.
  intros statusCode data Hparse. unfold on_end, remote_error. rewrite Hparse.
  destruct (400 <=? default 0%N statusCode)%N.
  - exists (slice_to 300 data). unfold slice_to. simpl to_string.
    split; [done|]. split; [apply length_firstn|].
    split; [exists (skipn 300 data); by rewrite firstn_skipn|].
    intros Hlen. apply firstn_all2. lia.
  - exists (slice_to 200 data). unfold slice_to.
    split; [done|]. split; [apply length_firstn|].
    split; [exists (skipn 200 data); by rewrite firstn_skipn|].
    intros Hlen. by apply firstn_all2.
Qed.

End WithRuntime.

Import Host.

Lemma undecodable_body_is_truncated_witness :
  JSON_parse (js "Internal Server Error") = None /\
  exists shown,
    on_end (Some 500%N) (js "Internal Server Error") =
      Some (Rejected (remote_error 500 shown)) /\
    shown = js "Internal Server Error".
Proof.
  split; [vm_compute; reflexivity|].
  destruct (@undecodable_body_is_truncated small (Some 500%N) (js "Internal Server Error")
              ltac:(vm_compute; reflexivity)) as (shown & Hend & _ & _ & Hwhole).
  exists shown. split; [exact Hend|]. apply Hwhole. vm_compute. lia.
Defined.

End ClientFacts.

(** ** More on the health check *)

Module DiscoveryFacts.
Import BrainClient HealthFacts.

Section WithRuntime.
Context {R : Runtime}.
Variable net : nat -> request -> option exchange.
Variable c : client.

Lemma tryUrl_of_nonempty base p : tryUrl_of base p <> [].
Proof.
  unfold tryUrl_of. change (js "//") with [47%N; 47%N].
  by destruct (protocol base).
Qed.

(** A probe against an override is the probe of a client configured with
    it. *)
Lemma fire_override e m path timeoutMs tryUrl :
  tryUrl <> [] ->
  _fire e c m path timeoutMs (Some tryUrl) =
  _fire e {| _baseUrl := tryUrl; _vibeRequest := _vibeRequest c |} m path timeoutMs None.
Proof.
  intros Hne. unfold _fire, options, base_of. simpl. by case_bool_decide.
Qed.

Lemma reports_ok_not_threw r : reports_ok r = true -> threw r = false.
Proof.
  unfold reports_ok, threw. destruct r as [[res|e]|]; [|done..].
  by destruct (get res (js "status")).
Qed.

(** A health check that resolves to true had an ok reply from the endpoint
    the client holds afterwards. *)
Lemma healthCheck_true_probe :
  outcome (healthCheck net c) = Some (Resolved true) ->
  exists n, n <= 9 /\
    reports_ok (_fire (net n) (after (healthCheck net c)) GET (js "/health")
                      HEALTH_TIMEOUT_MS None) = true.
Proof.
  destruct (threw (configured_probe net c)) eqn:Hthrew.
  - destruct (URL_new (_baseUrl c)) as [base|] eqn:Hbase.
    + destruct (healthCheck_scan net c base Hbase Hthrew)
        as [[_ ->] | [(k & Hk & Hok & _ & ->) | (k & _ & _ & _ & ->)]]; [done| |done].
      intros _. exists k. split; [lia|]. simpl after.
      unfold scanned_probe in Hok.
      by rewrite fire_override in Hok by apply tryUrl_of_nonempty.
    + rewrite healthCheck_threw by done. unfold discovery. by rewrite Hbase.
  - destruct (pending (configured_probe net c)) eqn:Hpend.
    + by rewrite healthCheck_pending.
    + rewrite healthCheck_answered by done. simpl. intros [= Hok].
      exists 0. split; [lia | exact Hok].
Qed.

(** X6. The health check reports the Brain as reachable only on evidence: when
    it resolves to true, one of its at most ten probes, addressed to the
    endpoint the client holds afterwards, was answered with an ok status. *)
Theorem online_only_after_ok_reply :
  outcome (healthCheck net c) = Some (Resolved true) ->
  exists n, n <= 9 /\
    reports_ok (_fire (net n) (after (healthCheck net c)) GET (js "/health")
                      HEALTH_TIMEOUT_MS None) = true.
Proof. apply healthCheck_true_probe. Qed.

(** X7. Once a health check has resolved to true, the next one, on a network
    that answers as before, resolves to true with its first probe: it keeps
    the endpoint and scans no port. *)
Theorem health_check_settles :
  (forall n r, net n r = net 0 r) ->
  outcome (healthCheck net c) = Some (Resolved true) ->
  healthCheck net (after (healthCheck net c)) =
  {| outcome := Some (Resolved true);
     after := after (healthCheck net c);
     attempts := [Configured (_baseUrl (after (healthCheck net c)))] |}.
Proof.
  intros Hsame Htrue. destruct (healthCheck_true_probe Htrue) as (n & _ & Hok).
  assert (Hfirst : reports_ok (configured_probe net (after (healthCheck net c))) = true).
  { unfold configured_probe. unfold _fire in *.
    destruct (options (after (healthCheck net c)) GET (js "/health")
                HEALTH_TIMEOUT_MS None) as [r|]; [|done].
    by rewrite <- (Hsame n). }
  rewrite healthCheck_answered
    by (by apply reports_ok_not_threw || by apply reports_ok_settled).
  by rewrite Hfirst.
Qed.



(** X9. With a configured address that [new URL] refuses, a health check whose
    first probe fails does not resolve: it rejects with the TypeError of the
    [catch] block, after that one probe and without touching the client. *)
Theorem unparsed_endpoint_rejects :
  URL_new (_baseUrl c) = None ->
  threw (configured_probe net c) = true ->
  healthCheck net c =
  {| outcome := Some (Rejected TypeError); after := c;
     attempts := [Configured (_baseUrl c)] |}.
Proof.
  intros Hbase Hthrew. rewrite healthCheck_threw by done.
  unfold discovery. by rewrite Hbase.
Qed.

End WithRuntime.

Import Host HealthExamples.

Lemma online_only_after_ok_reply_witness :
  outcome (healthCheck brain_on_8423 (constructor (js "http://127.0.0.1:8420"))) =
    Some (Resolved true) /\
  exists n, n <= 9 /\
    reports_ok (_fire (brain_on_8423 n)
                      (after (healthCheck brain_on_8423
                                (constructor (js "http://127.0.0.1:8420"))))
                      GET (js "/health") HEALTH_TIMEOUT_MS None) = true.
Proof.
  split; [vm_compute; reflexivity|].
  apply (@online_only_after_ok_reply small brain_on_8423
           (constructor (js "http://127.0.0.1:8420"))).
  vm_compute; reflexivity.
Defined.

Lemma health_check_settles_witness :
  (forall n r, brain_on_8423 n r = brain_on_8423 0 r) /\
  outcome (healthCheck brain_on_8423 (constructor (js "http://127.0.0.1:8420"))) =
    Some (Resolved true) /\
  healthCheck brain_on_8423 moved_to_8423 =
  {| outcome := Some (Resolved true); after := moved_to_8423;
     attempts := [Configured (js "http://127.0.0.1:8423")] |}.
Proof.
  split; [reflexivity|]. split; [vm_compute; reflexivity|].
  apply (@health_check_settles small brain_on_8423
           (constructor (js "http://127.0.0.1:8420"))).
  - reflexivity.
  - vm_compute; reflexivity.
Defined.

Lemma unparsed_endpoint_rejects_witness :
  URL_new (_baseUrl misconfigured) = None /\
  threw (configured_probe brain_on_8423 misconfigured) = true /\
  outcome (healthCheck brain_on_8423 misconfigured) = Some (Rejected TypeError).
Proof.
  split; [vm_compute; reflexivity|]. split; [vm_compute; reflexivity|].
  rewrite (@unparsed_endpoint_rejects small brain_on_8423 misconfigured);
    [reflexivity | vm_compute; reflexivity | vm_compute; reflexivity].
Defined.

End DiscoveryFacts.

(** ** More on tracked and untracked exchanges *)

Module ExchangeFacts.
Import BrainClient SlotFacts Continuity.

Section WithRuntime.
Context {R : Runtime}.

Lemma step_next w w' : step w w' -> next w <= next w'.
Proof.
  intros [w0 m path|w0 m path t b|w0 req x i _|w0].
  - unfold _fetchTracked.
    destruct (_makeRequest w0 m path TIMEOUT_MS None) as [[req w1]|] eqn:E; [|done].
    apply makeRequest_heap in E as (_ & Hnext & _). simpl. lia.
  - unfold fire_start.
    destruct (_makeRequest w0 m path t b) as [[req w1]|] eqn:E; [|done].
    apply makeRequest_heap in E as (_ & Hnext & _). simpl. lia.
  - done.
  - unfold abort. by destruct (_vibeRequest (self w0)).
Qed.

Lemma continues_refl i : continues i i.
Proof. unfold continues. by repeat split. Qed.

Lemma continues_trans i j k : continues i j -> continues j k -> continues i k.
Proof.
  intros (Hi & Hd & Hp) (Hi' & Hd' & Hp'). split; [congruence|]. split; [auto|].
  intros r Hr. by apply Hp', Hp.
Qed.

Lemma finish_continues x i : continues i (finish x i).
Proof.
  assert (Hsettle : forall r j, continues i j -> continues i (settle_once r j)).
  { intros r [ij dj [pj|]] (Hi & Hd & Hp); unfold continues, settle_once; simpl in *.
    - by (split; [|split]).
    - split; [done|]. split; [done|]. intros r' Hr'. by apply Hp in Hr'. }
  destruct x as [statusCode data| |]; simpl.
  - destruct (on_end statusCode data); [|apply continues_refl].
    apply Hsettle, continues_refl.
  - apply Hsettle, continues_refl.
  - apply Hsettle. unfold continues. by repeat split.
Qed.

Lemma destroy_continues i : continues i (destroy i).
Proof. unfold continues. by repeat split. Qed.

Lemma step_continues w w' req i :
  sound w -> step w w' -> heap w !! req = Some i ->
  exists i', heap w' !! req = Some i' /\ continues i i'.
Proof.
  intros [Hbelow _] Hstep Hi. pose proof (Hbelow req i Hi) as Hlt.
  destruct Hstep as [w m path|w m path t b|w req0 x i0 _|w].
  - unfold _fetchTracked.
    destruct (_makeRequest w m path TIMEOUT_MS None) as [[r w1]|] eqn:E;
      [|exists i; split; [done | apply continues_refl]].
    apply makeRequest_heap in E as (_ & _ & _ & rq & Hheap). simpl.
    exists i. split; [|apply continues_refl].
    rewrite Hheap, lookup_insert_ne; [done | lia].
  - unfold fire_start.
    destruct (_makeRequest w m path t b) as [[r w1]|] eqn:E;
      [|exists i; split; [done | apply continues_refl]].
    apply makeRequest_heap in E as (_ & _ & _ & rq & Hheap). simpl.
    exists i. split; [|apply continues_refl].
    rewrite Hheap, lookup_insert_ne; [done | lia].
  - simpl. destruct (decide (req0 = req)) as [->|Hne].
    + exists (finish x i). split; [by rewrite lookup_alter_eq, Hi | apply finish_continues].
    + exists i. split; [by rewrite lookup_alter_ne | apply continues_refl].
  - unfold abort. destruct (_vibeRequest (self w)) as [req0|];
      [|exists i; split; [done | apply continues_refl]].
    simpl. destruct (decide (req0 = req)) as [->|Hne].
    + exists (destroy i). split; [by rewrite lookup_alter_eq, Hi | apply destroy_continues].
    + exists i. split; [by rewrite lookup_alter_ne | apply continues_refl].
Qed.

Lemma steps_sound w w' : sound w -> rtc step w w' -> sound w'.
Proof. intros Hs Hsteps. induction Hsteps as [|w w1 w2 H1 _ IH]; [done|]. by apply IH, (step_sound w). Qed.

(** X10. A request object is never dropped or rewound: over any further steps
    of the client it stays in place with the options it was issued with, a
    destroyed request stays destroyed, and a settled promise keeps the value
    it was settled with. *)
Theorem requests_only_progress :
  forall (baseUrl : jsstring) (w w2 : world) (req : handle) (i : inflight),
    reachable baseUrl w ->
    rtc step w w2 ->
    heap w !! req = Some i ->
    exists i',
      heap w2 !! req = Some i' /\
      issued i' = issued i /\
      (destroyed i = true -> destroyed i' = true) /\
      (forall r, promise i = Some r -> promise i' = Some r).
Proof.
  intros baseUrl w w2 req i Hreach Hsteps. apply reachable_sound in Hreach.
  revert i. induction Hsteps as [w|w w1 w2 H1 _ IH]; intros i Hi.
  - exists i. split; [done | apply continues_refl].
  - destruct (step_continues w w1 req i Hreach H1 Hi) as (i1 & Hi1 & Hc1).
    destruct (IH (step_sound _ _ Hreach H1) i1 Hi1) as (i2 & Hi2 & Hc2).
    exists i2. split; [done|]. by apply (continues_trans i i1 i2).
Qed.

(** X11. In every state the client can reach, a handle in the slot is that of
    an existing request whose promise is not settled and that was not
    destroyed. *)
Theorem slot_holds_live_request :
  forall (baseUrl : jsstring) (w : world) (req : handle),
    reachable baseUrl w ->
    _vibeRequest (self w) = Some req ->
    exists i, heap w !! req = Some i /\ promise i = None /\ destroyed i = false.
Proof.
  intros baseUrl w req Hreach Hslot.
  destruct (reachable_sound _ _ Hreach) as [_ Hheld]. by apply Hheld.
Qed.

Lemma step_keeps_out w w' req :
  step w w' ->
  req < next w -> _vibeRequest (self w) <> Some req ->
  _vibeRequest (self w') <> Some req.
Proof.
  intros Hstep Hlt Hout. destruct Hstep as [w m path|w m path t b|w req0 x i _|w].
  - unfold _fetchTracked.
    destruct (_makeRequest w m path TIMEOUT_MS None) as [[r w1]|] eqn:E; [|done].
    apply makeRequest_heap in E as (Hr & _). subst r. simpl. intros [= Heq]. lia.
  - unfold fire_start.
    destruct (_makeRequest w m path t b) as [[r w1]|] eqn:E; [|done].
    apply makeRequest_heap in E as (_ & _ & Hself & _). simpl. by rewrite Hself.
  - simpl. unfold release. by case_bool_decide.
  - unfold abort. destruct (_vibeRequest (self w)) eqn:E; simpl; congruence.
Qed.

Lemma steps_keep_out w w' req :
  rtc step w w' ->
  req < next w -> _vibeRequest (self w) <> Some req ->
  req < next w' /\ _vibeRequest (self w') <> Some req.
Proof.
  intros Hsteps. induction Hsteps as [w0|w0 wa wb H1 _ IH]; [done|].
  intros Hlt Hout. apply IH.
  - pose proof (step_next _ _ H1). lia.
  - by apply (step_keeps_out w0).
Qed.

(** X12. A request made by [_fire] never gets into the tracked slot, whatever
    the client does afterwards: its completion leaves the slot as it is and
    [abort] does not touch it. *)
Theorem untracked_request_never_in_slot :
  forall (baseUrl : jsstring) (w w1 w2 : world) (m : method) (path : jsstring)
         (timeoutMs : N) (baseOverride : option jsstring) (req : handle),
    reachable baseUrl w ->
    fire_start w m path timeoutMs baseOverride = (w1, inl req) ->
    rtc step w1 w2 ->
    _vibeRequest (self w2) <> Some req /\
    (forall x, self (completion w2 req x) = self w2) /\
    heap (abort w2) !! req = heap w2 !! req.
Proof.
  intros baseUrl w w1 w2 m path t b req Hreach Hstart Hsteps.
  destruct (reachable_sound _ _ Hreach) as [Hbelow Hheld].
  unfold fire_start in Hstart.
  destruct (_makeRequest w m path t b) as [[r w']|] eqn:E; [|done].
  injection Hstart as <- <-.
  apply makeRequest_heap in E as (-> & Hnext & Hself & _).
  assert (Hout : _vibeRequest (self w') <> Some (next w)).
  { rewrite Hself. intros Hslot.
    destruct (Hheld _ Hslot) as (i & Hi & _). apply Hbelow in Hi. lia. }
  destruct (steps_keep_out w' w2 (next w) Hsteps) as [Hlt Hout2]; [lia | done |].
  split; [done|]. split.
  - intros x. simpl. unfold release. by case_bool_decide.
  - unfold abort. destruct (_vibeRequest (self w2)) as [req0|] eqn:Hslot; [|done].
    simpl. rewrite lookup_alter_ne; [done|]. intros ->. by apply Hout2.
Qed.

End WithRuntime.

Import Host.

(** A generation request against a fresh client, then a cancel. *)
Lemma slot_holds_live_request_witness :
  reachable (js "http://127.0.0.1:8420")
    (fst (sendVibe (new_world (js "http://127.0.0.1:8420")))) /\
  _vibeRequest (self (fst (sendVibe (new_world (js "http://127.0.0.1:8420"))))) = Some 0 /\
  exists i,
    heap (fst (sendVibe (new_world (js "http://127.0.0.1:8420")))) !! 0 = Some i /\
    promise i = None /\ destroyed i = false.
Proof.
  assert (Hreach : reachable (js "http://127.0.0.1:8420")
                     (fst (sendVibe (new_world (js "http://127.0.0.1:8420")))))
    by (eapply reach_step; [apply reach_new | apply step_tracked]).
  split; [exact Hreach|]. split; [vm_compute; reflexivity|].
  apply (@slot_holds_live_request small (js "http://127.0.0.1:8420") _ 0 Hreach).
  vm_compute; reflexivity.
Defined.

Lemma requests_only_progress_witness :
  reachable (js "http://127.0.0.1:8420")
    (fst (sendVibe (new_world (js "http://127.0.0.1:8420")))) /\
  rtc step (fst (sendVibe (new_world (js "http://127.0.0.1:8420"))))
           (abort (fst (sendVibe (new_world (js "http://127.0.0.1:8420"))))) /\
  exists i i',
    heap (fst (sendVibe (new_world (js "http://127.0.0.1:8420")))) !! 0 = Some i /\
    heap (abort (fst (sendVibe (new_world (js "http://127.0.0.1:8420"))))) !! 0 = Some i' /\
    issued i' = issued i.
Proof.
  assert (Hreach : reachable (js "http://127.0.0.1:8420")
                     (fst (sendVibe (new_world (js "http://127.0.0.1:8420")))))
    by (eapply reach_step; [apply reach_new | apply step_tracked]).
  assert (Hsteps : rtc step (fst (sendVibe (new_world (js "http://127.0.0.1:8420"))))
                     (abort (fst (sendVibe (new_world (js "http://127.0.0.1:8420"))))))
    by (apply rtc_once, step_abort).
  split; [exact Hreach|]. split; [exact Hsteps|].
  destruct (reachable_sound _ _ Hreach) as [_ Hheld].
  destruct (Hheld 0 ltac:(vm_compute; reflexivity)) as (i & Hi & _).
  exists i.
  destruct (@requests_only_progress small (js "http://127.0.0.1:8420") _ _ 0 i
              Hreach Hsteps Hi) as (i' & Hi' & Hissued & _).
  exists i'. by repeat split.
Defined.

(** A health probe is fired, then a generation request is sent. *)
Lemma untracked_request_never_in_slot_witness :
  snd (fire_start (new_world (js "http://127.0.0.1:8420")) GET (js "/health")
         HEALTH_TIMEOUT_MS None) = inl 0 /\
  _vibeRequest
    (self (fst (sendVibe (fst (fire_start (new_world (js "http://127.0.0.1:8420")) GET
                                 (js "/health") HEALTH_TIMEOUT_MS None))))) <> Some 0.
Proof.
  assert (Hsnd : snd (fire_start (new_world (js "http://127.0.0.1:8420")) GET (js "/health")
                        HEALTH_TIMEOUT_MS None) = inl 0)
    by (vm_compute; reflexivity).
  split; [exact Hsnd|].
  apply (@untracked_request_never_in_slot small (js "http://127.0.0.1:8420")
           (new_world (js "http://127.0.0.1:8420"))
           (fst (fire_start (new_world (js "http://127.0.0.1:8420")) GET (js "/health")
                   HEALTH_TIMEOUT_MS None))
           _ GET (js "/health") HEALTH_TIMEOUT_MS None 0).
  - apply reach_new.
  - apply injective_projections; [reflexivity | exact Hsnd].
  - apply rtc_once, step_tracked.
Defined.

End ExchangeFacts.

(** ** More on splitting and on the pull stream reader *)

Module ReaderFacts.
Import BrainClient SplitFacts StreamFacts.

Lemma split_from_skip sep skip s :
  split_from sep skip s = split_from sep 0 (skipn skip s).
Proof.
  revert skip. induction s as [|c r IH]; intros skip.
  - by destruct skip.
  - destruct skip as [|k]; [done|]. simpl skipn. cbn [split_from]. apply IH.
Qed.

Lemma startsWith_decompose sep s :
  startsWith sep s = true -> s = sep ++ skipn (length sep) s.
Proof.
  revert s. induction sep as [|a sep IH]; intros [|b s]; simpl; try done.
  intros [->%N.eqb_eq H]%andb_true_iff. f_equal. by apply IH.
Qed.

Lemma startsWith_self sep post : startsWith sep (sep ++ post) = true.
Proof.
  induction sep as [|a sep IH]; simpl; [by destruct post|].
  by rewrite N.eqb_refl, IH.
Qed.

Lemma join_cons_head sep c ps : ps <> [] -> join sep (cons_head c ps) = c :: join sep ps.
Proof. by destruct ps as [|p [|q r]]. Qed.

Lemma join_cons sep p ps : ps <> [] -> join sep (p :: ps) = p ++ sep ++ join sep ps.
Proof. by destruct ps. Qed.

(** Joining the pieces of a split with the separator gives the text back. *)
Lemma join_split_from sep s : sep <> [] -> join sep (split_from sep 0 s) = s.
Proof.
  intros Hsep. remember (length s) as n eqn:Hn.
  revert s Hn. induction n as [n IH] using lt_wf_ind. intros s Hn.
  destruct s as [|c r]; [done|]. cbn [split_from].
  destruct (startsWith sep (c :: r)) eqn:E.
  - rewrite join_cons by apply split_from_nonempty.
    rewrite split_from_skip.
    pose proof (startsWith_decompose _ _ E) as Hs.
    assert (Hlen : 1 <= length sep) by (destruct sep; [done | simpl; lia]).
    assert (Hskip : skipn (length sep) (c :: r) = skipn (length sep - 1) r).
    { destruct (length sep) as [|k]; [lia|]. simpl. by rewrite Nat.sub_0_r. }
    rewrite (IH (length (skipn (length sep - 1) r))); [| |done].
    + simpl. rewrite <- Hskip. by rewrite <- Hs.
    + rewrite length_skipn. subst n. simpl. lia.
  - rewrite join_cons_head by apply split_from_nonempty.
    f_equal. apply (IH (length r)); [subst n; simpl; lia | done].
Qed.

(** A text splits in one piece exactly when the separator does not occur
    in it. *)
Lemma single_piece_no_separator sep s :
  sep <> [] ->
  split_from sep 0 s = [s] -> forall pre post, s <> pre ++ sep ++ post.
Proof.
  intros Hsep Hone pre. revert s Hone.
  induction pre as [|c pre IH]; intros s Hone post ->.
  - simpl in Hone. destruct (sep ++ post) as [|c r] eqn:Es.
    + by destruct sep.
    + cbn [split_from] in Hone. rewrite <- Es, startsWith_self in Hone.
      injection Hone as _ Hrest. by apply split_from_nonempty in Hrest.
  - simpl in Hone. destruct (startsWith sep (c :: pre ++ sep ++ post)).
    + injection Hone as Habs _. done.
    + destruct (split_from sep 0 (pre ++ sep ++ post)) as [|p [|q ps]] eqn:E;
        [by apply split_from_nonempty in E | | done].
      pose proof (split_from_single _ _ _ E) as ->.
      by apply (IH _ E post).
Qed.

Lemma no_separator_single_piece sep s :
  (forall pre post, s <> pre ++ sep ++ post) -> split_from sep 0 s = [s].
Proof.
  induction s as [|c r IH]; intros Hno; [done|]. cbn [split_from].
  destruct (startsWith sep (c :: r)) eqn:E.
  - apply startsWith_decompose in E. by destruct (Hno [] (skipn (length sep) (c :: r))).
  - rewrite IH; [done|]. intros pre post ->. by apply (Hno (c :: pre) post).
Qed.

Section WithRuntime.
Context {R : Runtime}.

(** X13. The reader neither loses nor invents text: after any chunks, the units
    it has processed, joined by blank lines, followed by a blank line and its
    buffer, are the text received; and the buffer holds no blank line, so no
    complete unit waits in it. *)
Theorem reader_keeps_all_text :
  forall (sink : bool) (chunks : list jsstring),
    join blank_line
      (units (concat chunks) ++ [buffer (fst (on_chunks sink reader_start chunks))]) =
      concat chunks /\
    (forall pre post,
       buffer (fst (on_chunks sink reader_start chunks)) <> pre ++ blank_line ++ post).
Proof.
  intros sink chunks. rewrite on_chunks_start. simpl buffer. unfold units.
  rewrite split_blank. split.
  - rewrite <- app_removelast_last by apply split_from_nonempty.
    by apply join_split_from.
  - apply single_piece_no_separator; [done | apply split_from_last].
Qed.

(** X14. A text with no blank line (two line feeds in a row) in it is never
    read: whatever it holds, also units that end in CR LF CR LF, the sink is
    not called, all of it stays in the buffer, and the pull resolves to
    [{status: "ok", model}]. *)
Theorem text_without_blank_line_is_not_read :
  forall (sink : bool) (chunks : list jsstring),
    (forall pre post, concat chunks <> pre ++ blank_line ++ post) ->
    on_chunks sink reader_start chunks =
      ({| lastStatus := VStr []; buffer := concat chunks |}, []) /\
    (forall c m u, URL_new (_baseUrl c ++ js "/models/pull") = Some u ->
       pullModel c m sink (PullEnded chunks) =
       (Resolved {| status := js "ok"; model := Some m; message := None |}, [])).
Proof.
  intros sink chunks Hno.
  assert (Hread : on_chunks sink reader_start chunks =
                  ({| lastStatus := VStr []; buffer := concat chunks |}, [])).
  { rewrite on_chunks_start. unfold last_known_status, progress_events, units.
    rewrite split_blank, (no_separator_single_piece _ _ Hno). simpl. by destruct sink. }
  split; [exact Hread|].
  intros c m u Hu. unfold pullModel. by rewrite Hu, Hread.
Qed.

End WithRuntime.

Import Host StreamExamples.

Lemma text_without_blank_line_is_not_read_witness :
  (forall pre post, concat [crlf_stream] <> pre ++ blank_line ++ post) /\
  on_chunks true reader_start [crlf_stream] =
    ({| lastStatus := VStr []; buffer := concat [crlf_stream] |}, []).
Proof.
  assert (Hno : forall pre post, concat [crlf_stream] <> pre ++ blank_line ++ post)
    by (apply single_piece_no_separator; [done | vm_compute; reflexivity]).
  split; [exact Hno|].
  apply (@text_without_blank_line_is_not_read small true [crlf_stream] Hno).
Defined.

End ReaderFacts.

(** ** Properties of the prompt dispatch *)

Module DispatchFacts.
Import Extension.

(** One step through the decisions of [sendPromptToAgent]. *)
Ltac unfold_dispatch :=
  cbv [sendPromptToAgent bind writeText detectIDE readCommands ret throw dispatch
       sendToCursor sendToWindsurf sendToClaudeCode sendToCopilot sendToGenericChat
       try_catch executeCommand delay showInformationMessage].

Ltac branch :=
  match goal with
  | |- context [match getCommands ?e with _ => _ end] => destruct (getCommands e) eqn:?
  | |- context [if ?b then _ else _] => destruct b eqn:?
  end.

Ltac explore := unfold_dispatch; repeat (branch; unfold_dispatch).

Lemma named_false e :
  named e = false ->
  includes (appName e) (js "cursor") = false /\
  (includes (appName e) (js "windsurf") || includes (appName e) (js "codeium")
   || includes (appName e) (js "antigravity")) = false /\
  includes (appName e) (js "claude") = false.
Proof.
  unfold named.
  destruct (includes (appName e) (js "cursor")),
           (includes (appName e) (js "windsurf")),
           (includes (appName e) (js "codeium")),
           (includes (appName e) (js "antigravity")),
           (includes (appName e) (js "claude")); simpl; done.
Qed.

(** Once the editor is identified, the dispatch resolves. *)
Lemma dispatch_resolves e i prompt tr : fst (dispatch e i prompt tr) = Some tt.
Proof. destruct i; explore; reflexivity. Qed.

Lemma detectIDE_named e tr :
  named e = true -> exists i, detectIDE e tr = (Some i, tr).
Proof.
  unfold named, detectIDE, ret.
  destruct (includes (appName e) (js "cursor")); [by eauto|].
  destruct (includes (appName e) (js "windsurf")); [by eauto|].
  destruct (includes (appName e) (js "codeium")); [by eauto|].
  destruct (includes (appName e) (js "antigravity")); [by eauto|].
  destruct (includes (appName e) (js "claude")); [by eauto | done].
Qed.

Lemma detectIDE_listed e tr commands :
  named e = false -> getCommands e = Some commands ->
  exists i, detectIDE e tr = (Some i, tr ++ [GetCommands true]).
Proof.
  intros (H1 & H2 & H3)%named_false Hc. unfold detectIDE.
  rewrite H1, H2, H3. unfold bind, readCommands, ret. rewrite Hc.
  repeat match goal with
         | |- context [if ?b then _ else _] => destruct b
         end; by eauto.
Qed.

(** X15. Sending a prompt to the agent fails only before any command is run:
    when the clipboard cannot be written, or when the editor's name settles
    nothing and its command list cannot be read. In every other case it
    resolves, whichever commands fail. *)
Theorem prompt_dispatch_resolves :
  forall (e : editor) (prompt : jsstring),
    (clipboard e = false ->
       sendPromptToAgent e prompt [] = (None, [WriteText prompt false])) /\
    (clipboard e = true -> named e = false -> getCommands e = None ->
       sendPromptToAgent e prompt [] =
       (None, [WriteText prompt true; GetCommands false])) /\
    (clipboard e = true -> named e = true \/ getCommands e <> None ->
       fst (sendPromptToAgent e prompt []) = Some tt).
Proof.
  intros e prompt. split; [|split].
  - intros Hc. unfold sendPromptToAgent, bind, writeText. by rewrite Hc.
  - intros Hc (H1 & H2 & H3)%named_false Hg.
    unfold sendPromptToAgent, bind, writeText, detectIDE, readCommands.
    by rewrite Hc, H1, H2, H3, Hg.
  - intros Hc Hknown. unfold sendPromptToAgent, bind, writeText. rewrite Hc. simpl app.
    destruct (named e) eqn:Hn.
    + destruct (detectIDE_named e [WriteText prompt true] Hn) as [i ->].
      apply dispatch_resolves.
    + destruct Hknown as [|Hg]; [done|].
      destruct (getCommands e) as [commands|] eqn:Hcs; [|done].
      destruct (detectIDE_listed e [WriteText prompt true] commands Hn Hcs) as [i ->].
      apply dispatch_resolves.
Qed.

(** X16. When sending a prompt resolves, the user is never left without a
    sign of it: either the last call made is a command that worked, and no
    message is shown, or the last command tried failed, and the call after
    it, the last one, shows the one message that tells the user to paste the
    prompt from the clipboard. *)
Theorem prompt_is_delivered_or_announced :
  forall (e : editor) (prompt : jsstring),
    fst (sendPromptToAgent e prompt []) = Some tt ->
    (exists c a,
       last (snd (sendPromptToAgent e prompt [])) = Some (ExecuteCommand c a true) /\
       messages (snd (sendPromptToAgent e prompt [])) = []) \/
    (exists c a text,
       last (snd (sendPromptToAgent e prompt [])) = Some (ShowInformationMessage text) /\
       last (removelast (snd (sendPromptToAgent e prompt []))) =
         Some (ExecuteCommand c a false) /\
       messages (snd (sendPromptToAgent e prompt [])) = [text] /\
       startsWith (js "Prompt copied to clipboard! Paste it in your AI agent.") text = true).
Proof.
  intros e prompt.
  destruct (sendPromptToAgent e prompt []) as [res tr] eqn:Hrun.
  revert Hrun. explore; intros [= <- <-]; simpl; try discriminate; intros _;
    first
      [ left; eexists _, _; split; reflexivity
      | right; eexists _, _, _;
        split; [reflexivity|]; split; [reflexivity|]; split; [reflexivity|];
        vm_compute; reflexivity ].
Qed.

(** X17. The prompt is passed on as it is: the first call writes it to the
    clipboard, nothing else is ever written there, every command that takes
    an argument takes this prompt, and at most five commands are
    executed. *)
Theorem prompt_is_passed_unchanged :
  forall (e : editor) (prompt : jsstring),
    head (snd (sendPromptToAgent e prompt [])) = Some (WriteText prompt (clipboard e)) /\
    written (snd (sendPromptToAgent e prompt [])) = [prompt] /\
    Forall (fun x => snd (fst x) = None \/ snd (fst x) = Some (Text prompt)
                     \/ snd (fst x) = Some (Query prompt))
           (executed (snd (sendPromptToAgent e prompt []))) /\
    length (executed (snd (sendPromptToAgent e prompt []))) <= 5.
Proof.
  intros e prompt.
  destruct (sendPromptToAgent e prompt []) as [res tr] eqn:Hrun.
  revert Hrun. explore; intros [= <- <-]; simpl;
    (split; [reflexivity|]; split; [reflexivity|];
     split; [repeat (apply List.Forall_cons; [simpl; auto|]); apply List.Forall_nil | lia]).
Qed.

Lemma prompt_is_delivered_or_announced_witness :
  fst (sendPromptToAgent broken_cursor (js "add a login page") []) = Some tt /\
  ((exists c a,
      last (snd (sendPromptToAgent broken_cursor (js "add a login page") [])) =
        Some (ExecuteCommand c a true) /\
      messages (snd (sendPromptToAgent broken_cursor (js "add a login page") [])) = []) \/
   (exists c a text,
      last (snd (sendPromptToAgent broken_cursor (js "add a login page") [])) =
        Some (ShowInformationMessage text) /\
      last (removelast (snd (sendPromptToAgent broken_cursor (js "add a login page") []))) =
        Some (ExecuteCommand c a false) /\
      messages (snd (sendPromptToAgent broken_cursor (js "add a login page") [])) = [text] /\
      startsWith (js "Prompt copied to clipboard! Paste it in your AI agent.") text = true)).
Proof.
  split; [vm_compute; reflexivity|].
  apply (prompt_is_delivered_or_announced broken_cursor (js "add a login page")).
  vm_compute; reflexivity.
Defined.

(** The same prompt in an editor whose chat opens: detected through the
    command list as nothing in particular, delivered by the first command. *)
Example plain_editor_opens_chat :
  sendPromptToAgent plain_editor (js "add a login page") [] =
  (Some tt,
   [WriteText (js "add a login page") true;
    GetCommands true;
    ExecuteCommand (js "workbench.action.chat.open")
                   (Some (Query (js "add a login page"))) true]).
Proof. vm_compute. reflexivity. Qed.

End DispatchFacts.

(** ** Properties of the sidebar's handlers *)

Module SidebarFacts.
Import BrainClient Sidebar.

Ltac unfold_handler :=
  cbv [handleVibe _loadAll then_ catching finally _post awaited read unit_ raise or_else].

Lemma get_total r key : get r key <> None -> forall key', get r key' = Some (field r key').
Proof. unfold field. by destruct r. Qed.

(** X18. [handleVibe] never throws and always ends by turning the loading
    indicator off. A rejected request gives one error post and no result; a
    reply of [null] likewise; any other reply is posted as a result, handed
    to the agent when the setting asks for it, and when that hand-over fails
    the error is posted after the result. *)
Theorem handle_vibe_posts :
  forall (reply : settled value) (autoSend agent_ok : bool),
    fst (handleVibe reply autoSend agent_ok []) = inl tt /\
    last (snd (handleVibe reply autoSend agent_ok [])) = Some (Post (Loading false)) /\
    (forall e, reply = Rejected e ->
       snd (handleVibe reply autoSend agent_ok []) =
       [Post (Loading true); Post (Err (shown (FromClient e))); Post (Loading false)]) /\
    (forall r, reply = Resolved r -> get r (js "prompt") = None ->
       snd (handleVibe reply autoSend agent_ok []) =
       [Post (Loading true); Post (Err (MessageOf (NullRead (js "prompt"))));
        Post (Loading false)]) /\
    (forall r, reply = Resolved r -> get r (js "prompt") <> None ->
       snd (handleVibe reply autoSend agent_ok []) =
       [Post (Loading true); Post (result_of r)]
       ++ (if autoSend then [SendToAgent (field r (js "prompt")) agent_ok] else [])
       ++ (if autoSend && negb agent_ok then [Post (Err (MessageOf FromEditor))] else [])
       ++ [Post (Loading false)]).
Proof.
  intros reply autoSend agent_ok.
  assert (Hcases :
    (exists e, reply = Rejected e /\
       handleVibe reply autoSend agent_ok [] =
       (inl tt, [Post (Loading true); Post (Err (shown (FromClient e)));
                 Post (Loading false)])) \/
    (exists r, reply = Resolved r /\ get r (js "prompt") = None /\
       handleVibe reply autoSend agent_ok [] =
       (inl tt, [Post (Loading true); Post (Err (MessageOf (NullRead (js "prompt"))));
                 Post (Loading false)])) \/
    (exists r, reply = Resolved r /\ get r (js "prompt") <> None /\
       handleVibe reply autoSend agent_ok [] =
       (inl tt,
        [Post (Loading true); Post (result_of r)]
        ++ (if autoSend then [SendToAgent (field r (js "prompt")) agent_ok] else [])
        ++ (if autoSend && negb agent_ok then [Post (Err (MessageOf FromEditor))] else [])
        ++ [Post (Loading false)]))).
  { destruct reply as [r|e].
    - destruct (get r (js "prompt")) as [p|] eqn:Hp.
      + right. right. exists r. split; [done|]. split; [by rewrite Hp|].
        assert (Hall : forall key, get r key = Some (field r key))
          by (apply (get_total r (js "prompt")); by rewrite Hp).
        unfold_handler. rewrite !Hall. unfold result_of.
        by destruct autoSend, agent_ok.
      + right. left. exists r. split; [done|]. split; [done|].
        unfold_handler. by rewrite Hp.
    - left. exists e. split; [done|]. by unfold_handler. }
  destruct Hcases as [(e & -> & ->) | [(r & -> & Hp & ->) | (r & -> & Hp & ->)]].
  - split; [done|]. split; [done|]. split; [by intros ? [= ->]|]. split; by intros.
  - split; [done|]. split; [done|]. split; [by intros|]. split; [by intros ? [= ->]|].
    intros ? [= <-]. done.
  - split; [done|]. split; [by destruct autoSend, agent_ok|].
    split; [by intros|]. split; [|by intros ? [= <-]].
    intros ? [= <-]. done.
Qed.

Section WithCatalog.
Variable FALLBACK_CATALOG : value.

(** X19. [_loadAll] never throws and posts the models exactly once. The catalog
    it posts is the server's only when the catalog request resolved to a
    value whose [catalog] has a length that counts as true; in every other
    case it is the static catalog. When the request for the installed models
    fails, none are reported as installed. *)
Theorem load_all_posts_once :
  forall (models_reply catalog_reply : settled value),
    fst (_loadAll FALLBACK_CATALOG models_reply catalog_reply []) = inl tt /\
    exists installed current catalog,
      snd (_loadAll FALLBACK_CATALOG models_reply catalog_reply []) =
        [Post (AllModels installed current catalog)] /\
      (catalog = FALLBACK_CATALOG \/
       exists c, catalog_reply = Resolved c /\ get c (js "catalog") = Some catalog /\
                 length_truthy catalog = true) /\
      ((exists e, catalog_reply = Rejected e) -> catalog = FALLBACK_CATALOG) /\
      ((exists e, models_reply = Rejected e) ->
         installed = VArr [] /\ current = VStr []).
Proof.
  intros models_reply catalog_reply. unfold_handler.
  destruct catalog_reply as [c|ec]; simpl.
  - destruct (get c (js "catalog")) as [listed|] eqn:Hc; simpl.
    + destruct models_reply as [i|ei]; simpl.
      * destruct (get i (js "models")) as [ms|] eqn:Hm; simpl.
        -- assert (Hcur : get i (js "current") = Some (field i (js "current")))
             by (apply (get_total i (js "models")); by rewrite Hm).
           rewrite Hcur. simpl. split; [done|].
           eexists _, _, _. split; [done|].
           split; [|split; [by intros [? ?] | by intros [? ?]]].
           destruct (length_truthy listed) eqn:Hl; [right; by exists c | by left].
        -- split; [done|]. eexists _, _, _. split; [done|].
           split; [by left|]. split; [by intros [? ?] | by intros [? ?]].
      * split; [done|]. eexists _, _, _. split; [done|].
        split; [|split; [by intros [? ?] | done]].
        destruct (length_truthy listed) eqn:Hl; [right; by exists c | by left].
    + split; [done|]. eexists _, _, _. split; [done|].
      split; [by left|]. split; [by intros [? ?]|].
      intros [e ->]. done.
  - destruct models_reply as [i|ei]; simpl.
    + destruct (get i (js "models")) as [ms|] eqn:Hm; simpl.
      * assert (Hcur : get i (js "current") = Some (field i (js "current")))
          by (apply (get_total i (js "models")); by rewrite Hm).
        rewrite Hcur. simpl. split; [done|].
        eexists _, _, _. split; [done|].
        split; [by left|]. split; [done | by intros [? ?]].
      * split; [done|]. eexists _, _, _. split; [done|].
        split; [by left|]. split; [done | by intros [? ?]].
    + split; [done|]. eexists _, _, _. split; [done|].
      split; [by left|]. done.
Qed.

End WithCatalog.

Section WithRuntime.
Context {R : Runtime}.

(** X20. What the sidebar posts for a pull: the start, then one progress post
    per progress event of the text received, in order, then one closing
    post: done (followed by a reload of the models) unless the last known
    status of the stream is [error], a failure with the text [Pull failed]
    in that case, and a failure with the error's text when the exchange
    ended in an error or a timeout. The handler never throws. *)
Theorem pull_posts :
  forall (c : client) (m : jsstring) (x : pull_exchange) (u : URL),
    URL_new (_baseUrl c ++ js "/models/pull") = Some u ->
    _pullModel c m x [] =
    (inl tt,
     [Post (PullStart m)]
     ++ map (fun call => Post (PullProgress m (fst call) (snd call)))
            (progress_events (concat (chunks_of x)))
     ++ match x with
        | PullEnded chunks =>
            if is_string (js "error") (last_known_status (concat chunks))
            then [Post (PullFail m (Literal (js "Pull failed")))]
            else [Post (PullDone m); LoadAll]
        | PullErrored _ err => [Post (PullFail m (MessageOf (FromClient (SocketError err))))]
        | PullTimedOut _ => [Post (PullFail m (Literal (js "Pull timeout")))]
        end).
Proof.
  intros c m x u Hu.
  unfold _pullModel, then_, catching, pulled, _post, pullModel. rewrite Hu.
  destruct x as [chunks|chunks err|chunks]; simpl chunks_of;
    rewrite StreamFacts.on_chunks_start; simpl.
  - unfold on_pull_end.
    destruct (is_string (js "done") (last_known_status (concat chunks))
              || is_string (js "success") (last_known_status (concat chunks))) eqn:Hd.
    + assert (is_string (js "error") (last_known_status (concat chunks)) = false) as ->.
      { destruct (last_known_status (concat chunks)) as [| | | |t| |]; try done.
        unfold is_string, jsstring_eqb in *. repeat case_bool_decide; subst; done. }
      simpl. by rewrite <- ?List.app_assoc.
    + destruct (is_string (js "error") (last_known_status (concat chunks)));
        simpl; by rewrite <- ?List.app_assoc.
  - by rewrite <- ?List.app_assoc.
  - by rewrite <- ?List.app_assoc.
Qed.

End WithRuntime.

Import Host.

Lemma pull_posts_witness :
  URL_new (_baseUrl (constructor (js "http://127.0.0.1:8420")) ++ js "/models/pull") =
    Some {| protocol := js "http:"; hostname := js "127.0.0.1"; port := Some 8420%N;
            pathname := js "/models/pull" |} /\
  _pullModel (constructor (js "http://127.0.0.1:8420")) (js "phi3")
             (PullEnded [example_stream]) [] =
  (inl tt,
   [Post (PullStart (js "phi3"));
    Post (PullProgress (js "phi3") (VNum 10%float) (VStr (js "running")));
    Post (PullDone (js "phi3")); LoadAll]).
Proof.
  split; [vm_compute; reflexivity|].
  rewrite (@pull_posts small (constructor (js "http://127.0.0.1:8420")) (js "phi3")
             (PullEnded [example_stream])
             {| protocol := js "http:"; hostname := js "127.0.0.1"; port := Some 8420%N;
                pathname := js "/models/pull" |} ltac:(vm_compute; reflexivity)).
  vm_compute. reflexivity.
Defined.

End SidebarFacts.
